(** * A long-poll notification broker (index.js): model and verification

    The server keeps one module-level object, [subscribers], mapping a device
    identifier to the array of [http.ServerResponse] objects that are held
    open for it.  Everything else is event handlers of the Node runtime:
    the ['request'] handler [handleRequest], the ['end'] listener of a POST
    body, the reactions of the upstream [fetch] promises, the ['close']
    listener and the socket-timeout callback installed by [saveSubscriber],
    and [gracefullyShutdown].

    Modelling choices.
    - A request/response pair of one HTTP exchange is a [conn]: the index of
      its [ServerResponse] in the heap [responses].  JavaScript's reference
      comparison [subscriber !== res] is comparison of indices.
    - A JavaScript string is a [string], one character per code unit, so
      [.length] is [String.length].
    - [subscribers] is an object literal: the [gmap string (list conn)] holds
      its own properties, and a name that is not an own property is looked
      up in [Object.prototype] ([property]).  What is found there
      ([constructor], [toString], [__proto__] and so on) is truthy and has
      none of the array methods, so calling [push], [forEach] or [filter] on
      it throws a [TypeError].  The program never creates an own property
      with such a name ([prototype_free_run]); the registry of a state is
      taken to have none.
    - [res.end] follows Node's [OutgoingMessage.end]: the first call finishes
      the response with the status code and headers the object has at that
      moment ([sent]); a call on a finished response changes nothing and
      does not throw.  What the first call fixes is written to the socket,
      and so reaches the peer, unless the socket has been destroyed by then
      ([delivered]).  [res.setHeader] throws once the headers are sent.
      Every call of [res.end] is also appended to the ghost log [endCalls].
    - A socket carries one exchange, so the socket-timeout callback and the
      ['close'] listener that [saveSubscriber] installs belong to one [conn],
      and [destroyed] is [res.socket.destroyed].  [socket.setTimeout] does
      nothing on a destroyed socket, throws a [TypeError] when the delay is
      not a number (line 13 gives the text of [SUBSCRIBER_TIMEOUT] when the
      variable is set), and installs no callback for the delay 0.  When a
      timeout, a close or the loss of the peer happens is up to the runtime:
      each is an [Event].  When the ['timeout'] event of a socket is emitted,
      the listener that the http server installed at connection time runs
      first and destroys the socket (no ['timeout'] listener is registered
      on a request, a response or the server here); the callbacks of
      [saveSubscriber] run after it.
    - [for (deviceId in subscribers)] visits the own properties; the order in
      which it visits them (integer-like names first, then by creation) is
      not modelled: [gracefullyShutdown] logs its [end] calls identifier by
      identifier in the key order of the map.
    - Handlers run in a state-and-exception monad [M]; an exception keeps the
      mutations made before it was thrown.  Reading an identifier that no
      scope declares is [unbound], which throws a [ReferenceError].
    - [console.log] and [console.error] output is not modelled;
      [console.warn] (used at module level only) is. *)

From stdpp Require Import base option list gmap strings.
From Stdlib Require Import Ascii Lia.

Open Scope string_scope.
Open Scope list_scope.
Open Scope stdpp_scope.
Open Scope nat_scope.

(** ** Values *)

Abbreviation conn := nat (only parsing).

Record Reply := mkReply {
  status : nat;
  hdrs : list (string * string);
  body : string
}.

(** The mutable part of an [http.ServerResponse] and of the socket under
    it:
    - [sent]: the reply that the first [res.end] fixed; from then on the
      response is finished and its headers count as sent;
    - [destroyed]: [res.socket.destroyed];
    - [delivered]: whether that reply was written to the socket. *)
Record ServerResponse := mkServerResponse {
  statusCode : nat;
  headers : list (string * string);
  sent : option Reply;
  destroyed : bool;
  delivered : bool
}.

(** [new http.ServerResponse(req)] on a live socket: status 200, no header,
    nothing sent. *)
Definition fresh_response : ServerResponse :=
  mkServerResponse 200 [] None false false.

(** What can be thrown.  The text of a [TypeError] names the kind of
    failure, not the wording of Node's message:
    - ["is not a function"]: [push], [forEach] or [filter] was called on a
      member of [Object.prototype];
    - ["Cannot read properties of undefined"]: [filter] was read from
      [undefined];
    - ["ERR_INVALID_ARG_TYPE"]: [setTimeout] was given a delay that is not a
      number. *)
Inductive Exn :=
| ReferenceError (ident : string)
| TypeError (msg : string)
| ERR_HTTP_HEADERS_SENT
| FetchError.

(** The two upstream calls, lines 168-176. *)
Inductive FetchCall :=
| PLC_GetData (deviceId : string)
| PLC_GetSetData (deviceId : string) (body : string).

(** What is chained on the promise of an upstream call:
    - [NoReaction]: nothing (the promise was created and dropped);
    - [ThenParse c d]: [.then(parseDatabaseResponse.bind(null, req, res, d))];
    - [ThenPublish d]: [.then(data => sendDataToSubscribers(d, data)).catch(..)]. *)
Inductive Reaction :=
| NoReaction
| ThenParse (c : conn) (deviceId : string)
| ThenPublish (deviceId : string).

(** The freshness of a payload, as the two [length <= 2] tests decide it. *)
Inductive Freshness := Empty | Real.

(** The value of [subscriberTimeout], line 13: the number 600000, or the
    text of the environment variable. *)
Inductive Delay :=
| Millis (n : N)
| Text (s : string).

(** The value of [subscribers[deviceId]]: an array that the program stored
    under that name, a member of [Object.prototype], or [undefined]. *)
Inductive Property :=
| Own (l : list nat)
| Inherited
| Undefined.

(** The module constants of lines 7-13. *)
Record Config := mkConfig {
  subscriptionKey : string;
  publishKey : string;
  PLC_GetDataKey : string;
  PLC_GetSetDataKey : string;
  subscriberTimeout : Delay
}.

(** Their values when the environment sets none of them. *)
Definition default_config : Config :=
  mkConfig "test-subscription-key" "test-publish-key" EmptyString EmptyString
    (Millis 600000%N).

(** What [url.parse(req.url, true)] and [req.method] give for an inbound
    request; a query parameter is absent ([None]) or has one value. *)
Record Request := mkRequest {
  method : string;
  pathname : string;
  q_ping : option string;
  q_device : option string;
  q_code : option string
}.

(** ** The state of the process *)

Record World := mkWorld {
  subscribers : gmap string (list conn);
  responses : list ServerResponse;
  endCalls : list (conn * option string);
  closeListeners : list (conn * string);
  timeoutListeners : list (conn * string);
  bodyListeners : list (conn * string);
  pendingFetches : list (FetchCall * Reaction);
  uncaught : list Exn;
  exitTimers : nat;
  listening : bool;
  warnings : list string;
  signalHandlers : list string
}.

Definition initial_world : World :=
  mkWorld ∅ [] [] [] [] [] [] [] 0 false [] [].

Definition set_subscribers (f : gmap string (list conn) → gmap string (list conn)) (w : World) : World :=
  mkWorld (f (subscribers w)) (responses w) (endCalls w) (closeListeners w)
    (timeoutListeners w) (bodyListeners w) (pendingFetches w) (uncaught w)
    (exitTimers w) (listening w) (warnings w) (signalHandlers w).

Definition set_responses (f : list ServerResponse → list ServerResponse) (w : World) : World :=
  mkWorld (subscribers w) (f (responses w)) (endCalls w) (closeListeners w)
    (timeoutListeners w) (bodyListeners w) (pendingFetches w) (uncaught w)
    (exitTimers w) (listening w) (warnings w) (signalHandlers w).

Definition set_endCalls (f : list (conn * option string) → list (conn * option string)) (w : World) : World :=
  mkWorld (subscribers w) (responses w) (f (endCalls w)) (closeListeners w)
    (timeoutListeners w) (bodyListeners w) (pendingFetches w) (uncaught w)
    (exitTimers w) (listening w) (warnings w) (signalHandlers w).

Definition set_closeListeners (f : list (conn * string) → list (conn * string)) (w : World) : World :=
  mkWorld (subscribers w) (responses w) (endCalls w) (f (closeListeners w))
    (timeoutListeners w) (bodyListeners w) (pendingFetches w) (uncaught w)
    (exitTimers w) (listening w) (warnings w) (signalHandlers w).

Definition set_timeoutListeners (f : list (conn * string) → list (conn * string)) (w : World) : World :=
  mkWorld (subscribers w) (responses w) (endCalls w) (closeListeners w)
    (f (timeoutListeners w)) (bodyListeners w) (pendingFetches w) (uncaught w)
    (exitTimers w) (listening w) (warnings w) (signalHandlers w).

Definition set_bodyListeners (f : list (conn * string) → list (conn * string)) (w : World) : World :=
  mkWorld (subscribers w) (responses w) (endCalls w) (closeListeners w)
    (timeoutListeners w) (f (bodyListeners w)) (pendingFetches w) (uncaught w)
    (exitTimers w) (listening w) (warnings w) (signalHandlers w).

Definition set_pendingFetches (f : list (FetchCall * Reaction) → list (FetchCall * Reaction)) (w : World) : World :=
  mkWorld (subscribers w) (responses w) (endCalls w) (closeListeners w)
    (timeoutListeners w) (bodyListeners w) (f (pendingFetches w)) (uncaught w)
    (exitTimers w) (listening w) (warnings w) (signalHandlers w).

Definition set_uncaught (f : list Exn → list Exn) (w : World) : World :=
  mkWorld (subscribers w) (responses w) (endCalls w) (closeListeners w)
    (timeoutListeners w) (bodyListeners w) (pendingFetches w) (f (uncaught w))
    (exitTimers w) (listening w) (warnings w) (signalHandlers w).

Definition set_exitTimers (f : nat → nat) (w : World) : World :=
  mkWorld (subscribers w) (responses w) (endCalls w) (closeListeners w)
    (timeoutListeners w) (bodyListeners w) (pendingFetches w) (uncaught w)
    (f (exitTimers w)) (listening w) (warnings w) (signalHandlers w).

Definition set_listening (b : bool) (w : World) : World :=
  mkWorld (subscribers w) (responses w) (endCalls w) (closeListeners w)
    (timeoutListeners w) (bodyListeners w) (pendingFetches w) (uncaught w)
    (exitTimers w) b (warnings w) (signalHandlers w).

Definition set_warnings (f : list string → list string) (w : World) : World :=
  mkWorld (subscribers w) (responses w) (endCalls w) (closeListeners w)
    (timeoutListeners w) (bodyListeners w) (pendingFetches w) (uncaught w)
    (exitTimers w) (listening w) (f (warnings w)) (signalHandlers w).

Definition set_signalHandlers (f : list string → list string) (w : World) : World :=
  mkWorld (subscribers w) (responses w) (endCalls w) (closeListeners w)
    (timeoutListeners w) (bodyListeners w) (pendingFetches w) (uncaught w)
    (exitTimers w) (listening w) (warnings w) (f (signalHandlers w)).

(** ** The monad of handlers: state and exceptions *)

Inductive Outcome (A : Type) :=
| Normal (a : A)
| Thrown (e : Exn).
Arguments Normal {A} a.
Arguments Thrown {A} e.

Definition M (A : Type) : Type := World → Outcome A * World.

Definition ret {A} (a : A) : M A := λ w, (Normal a, w).

Definition bind {A B} (m : M A) (k : A → M B) : M B :=
  λ w, match m w with
       | (Normal a, w') => k a w'
       | (Thrown e, w') => (Thrown e, w')
       end.

Definition throw {A} (e : Exn) : M A := λ w, (Thrown e, w).

(** [try { m } catch (e) { h e }] *)
Definition try_catch {A} (m : M A) (h : Exn → M A) : M A :=
  λ w, match m w with
       | (Normal a, w') => (Normal a, w')
       | (Thrown e, w') => h e w'
       end.

Definition gets {A} (f : World → A) : M A := λ w, (Normal (f w), w).

Definition modify (f : World → World) : M unit := λ w, (Normal tt, f w).

(** Reading an identifier that is declared in no enclosing scope. *)
Definition unbound {A} (ident : string) : M A := throw (ReferenceError ident).

#[export] Instance M_ret : MRet M := @ret.
#[export] Instance M_bind : MBind M := λ A B k m, bind m k.

Definition outcome {A} (m : M A) (w : World) : Outcome A := fst (m w).
Definition exec {A} (m : M A) (w : World) : World := snd (m w).

(** [l.forEach(f)] *)
Fixpoint forEach {A} (l : list A) (f : A → M unit) : M unit :=
  match l with
  | [] => ret tt
  | x :: l' => f x ;; forEach l' f
  end.

(** ** Response objects *)

(** [res.statusCode = n] *)
Definition set_statusCode (c : conn) (n : nat) : M unit :=
  modify (set_responses
    (alter (λ r, mkServerResponse n (headers r) (sent r) (destroyed r) (delivered r)) c)).

(** [res.setHeader(name, value)]: throws once the headers are sent. *)
Definition setHeader (c : conn) (name value : string) : M unit :=
  rs ← gets responses;
  match rs !! c with
  | Some r =>
      if sent r is Some _ then throw ERR_HTTP_HEADERS_SENT
      else modify (set_responses
             (<[c := mkServerResponse (statusCode r)
                       (filter (λ h, h.1 ≠ name) (headers r) ++ [(name, value)])
                       (sent r) (destroyed r) (delivered r)]>))
  | None => ret tt
  end.

(** What [res.end(data)] does to the response object: the first call
    finishes it, and writes the reply out if the socket is still there. *)
Definition finish (data : option string) (r : ServerResponse) : ServerResponse :=
  if sent r is Some _ then r
  else mkServerResponse (statusCode r) (headers r)
         (Some (mkReply (statusCode r) (headers r) (default EmptyString data)))
         (destroyed r) (negb (destroyed r)).

(** [socket.destroy()] *)
Definition destroy (r : ServerResponse) : ServerResponse :=
  mkServerResponse (statusCode r) (headers r) (sent r) true (delivered r).

(** [res.end(data)]; [res.end()] is [res_end c None]. *)
Definition res_end (c : conn) (data : option string) : M unit :=
  modify (set_endCalls (λ l, l ++ [(c, data)])) ;;
  modify (set_responses (alter (finish data) c)).

(** ** The subscriber registry, lines 146-166 and 196-218 *)

(** The names of the members of [Object.prototype]. *)
Definition Object_prototype : list string :=
  [ "constructor"; "__defineGetter__"; "__defineSetter__"; "hasOwnProperty";
    "__lookupGetter__"; "__lookupSetter__"; "isPrototypeOf";
    "propertyIsEnumerable"; "toString"; "valueOf"; "__proto__";
    "toLocaleString" ].

(** Whether [name in Object.prototype]. *)
Definition prototype_member (name : string) : bool :=
  bool_decide (name ∈ Object_prototype).

(** [subscribers[deviceId]]: an own property first, then the prototype. *)
Definition property (subs : gmap string (list conn)) (deviceId : string) : Property :=
  match subs !! deviceId with
  | Some l => Own l
  | None => if prototype_member deviceId then Inherited else Undefined
  end.

(** [subscribers[deviceId]] where the code calls an array method on it. *)
Definition the_array (deviceId : string) : M (list conn) :=
  subs ← gets subscribers;
  match property subs deviceId with
  | Own l => ret l
  | Inherited => throw (TypeError "is not a function")
  | Undefined => throw (TypeError "Cannot read properties of undefined")
  end.

(** The ['close'] listener of lines 156-159. *)
Definition onClose (c : conn) (deviceId : string) : M unit :=
  l ← the_array deviceId;
  modify (set_subscribers (<[deviceId := filter (λ subscriber, subscriber ≠ c) l]>)).

(** The socket-timeout callback of lines 162-165. *)
Definition onTimeout (c : conn) (deviceId : string) : M unit :=
  res_end c None.

(** [req.socket.setTimeout(msecs, callback)], where the callback is that of
    lines 162-165 for [deviceId]. *)
Definition socket_setTimeout (c : conn) (msecs : Delay) (deviceId : string) : M unit :=
  rs ← gets responses;
  match rs !! c with
  | Some r =>
      if destroyed r then ret tt
      else match msecs with
           | Text _ => throw (TypeError "ERR_INVALID_ARG_TYPE")
           | Millis n =>
               if (n =? 0)%N then ret tt
               else modify (set_timeoutListeners (λ ls, ls ++ [(c, deviceId)]))
           end
  | None => ret tt
  end.

(** Lines 146-166: the test of line 150 is false for an array and for a
    member of [Object.prototype] alike; [push] on line 153 throws for the
    latter; then come the ['close'] listener and the timeout callback. *)
Definition saveSubscriber (cfg : Config) (c : conn) (deviceId : string) : M unit :=
  subs ← gets subscribers;
  (if property subs deviceId is Undefined
   then modify (set_subscribers (<[deviceId := []]>))
   else ret tt) ;;
  l ← the_array deviceId;
  modify (set_subscribers (<[deviceId := l ++ [c]]>)) ;;
  modify (set_closeListeners (λ ls, ls ++ [(c, deviceId)])) ;;
  socket_setTimeout c (subscriberTimeout cfg) deviceId.

(** Lines 196-206: line 205 is reached only when line 199 did not throw. *)
Definition sendDataToSubscribers (deviceId : string) (data : string) : M unit :=
  subs ← gets subscribers;
  (if property subs deviceId is Undefined then ret tt
   else
     l ← the_array deviceId;
     forEach l (λ res, res_end res (Some data))) ;;
  modify (set_subscribers (<[deviceId := []]>)).

(** Lines 208-218.  [for ... in] visits the own properties of
    [subscribers], for each of which [hasOwnProperty] holds.  The [end]
    calls are made identifier by identifier, here in the key order of the
    map: the order in which [for ... in] visits the identifiers is not
    modelled. *)
Definition gracefullyShutdown : M unit :=
  subs ← gets subscribers;
  forEach (map_to_list subs)
    (λ entry, forEach entry.2 (λ res, res_end res None)) ;;
  modify (set_exitTimers S).

(** ** Upstream calls, lines 168-176 *)

(** The call is issued and its promise returned; the promise is the index
    of the call among the pending ones. *)
Definition GetDeviceData (deviceId : string) : M nat :=
  p ← gets (λ w, length (pendingFetches w));
  modify (set_pendingFetches (λ l, l ++ [(PLC_GetData deviceId, NoReaction)])) ;;
  ret p.

Definition GetSetDeviceData (deviceId : string) (body : string) : M nat :=
  p ← gets (λ w, length (pendingFetches w));
  modify (set_pendingFetches (λ l, l ++ [(PLC_GetSetData deviceId body, NoReaction)])) ;;
  ret p.

(** [promise.then(reaction)] *)
Definition then_ (p : nat) (reaction : Reaction) : M unit :=
  modify (set_pendingFetches (alter (λ f, (f.1, reaction)) p)).

(** ** The delivery engine, lines 182-194 *)

Definition classify (payload : string) : Freshness :=
  if String.length payload <=? 2 then Empty else Real.

Definition parseDatabaseResponse (cfg : Config) (c : conn) (deviceId : string) (data : string) : M unit :=
  if String.length data <=? 2 then
    saveSubscriber cfg c deviceId
  else
    sendDataToSubscribers deviceId data ;;
    res_end c (Some data).

(** ** The request router, lines 32-144 *)

Definition dq : string := String (ascii_of_nat 34) EmptyString.

(** [{"ping": "success"}] *)
Definition ping_body : string :=
  "{" +:+ dq +:+ "ping" +:+ dq +:+ ": " +:+ dq +:+ "success" +:+ dq +:+ "}".

(** [{"error": "..."}] *)
Definition error_body (msg : string) : string :=
  "{" +:+ dq +:+ "error" +:+ dq +:+ ": " +:+ dq +:+ msg +:+ dq +:+ "}".

(** A query value in a boolean position. *)
Definition truthy (v : option string) : bool :=
  match v with
  | Some s => negb (bool_decide (s = EmptyString))
  | None => false
  end.

(** [v || null] *)
Definition or_null (v : option string) : option string :=
  if truthy v then v else None.

(** The ['end'] listener of the POST body, lines 108-116; [message] is the
    concatenation of the chunks received. *)
Definition onBodyEnd (c : conn) (deviceId : string) (message : string) : M unit :=
  if String.length message <=? 2 then
    p ← GetDeviceData deviceId;
    then_ p (ThenParse c deviceId)
  else
    p ← GetSetDeviceData deviceId message;
    then_ p (ThenParse c deviceId).

Definition handleSubscribeRequest (rq : Request) (c : conn) (deviceId : string) : M unit :=
  if bool_decide (method rq = "POST") then
    modify (set_bodyListeners (λ ls, ls ++ [(c, deviceId)]))
  else if bool_decide (method rq = "GET") then
    p ← GetDeviceData deviceId;
    parseFunctionResponse ← unbound "parseFunctionResponse";
    then_ p parseFunctionResponse
  else ret tt.

(** Declared as [handlePublishRequest(req, res)]: the third argument of the
    call on line 90 is dropped, and [deviceId] in the body is bound nowhere.
    [Object.keys(subscribers[deviceId] || {}).length] is the length of an own
    array and 0 for a member of [Object.prototype], which has no enumerable
    property of its own. *)
Definition handlePublishRequest (rq : Request) (c : conn) : M unit :=
  deviceId ← unbound "deviceId";
  subs ← gets subscribers;
  let subscriberCount := length (default [] (subs !! deviceId)) in
  (if bool_decide (subscriberCount = 0) then ret tt
   else
     p ← GetDeviceData deviceId;
     then_ p (ThenPublish deviceId)) ;;
  setHeader c "Access-Control-Allow-Origin" "*" ;;
  set_statusCode c 204 ;;
  res_end c None.

Section Server.

Context (cfg : Config).

(** The [try] block of [handleRequest], lines 53-91. *)
Definition handleRequest_try (rq : Request) (c : conn) : M unit :=
  if truthy (q_ping rq) then
    res_end c (Some ping_body)
  else
    let deviceId := or_null (q_device rq) in
    let code := q_code rq in
    (if bool_decide (method rq = "OPTIONS") then
       setHeader c "Access-Control-Allow-Origin" "*" ;;
       res_end c None
     else ret tt) ;;
    match deviceId with
    | None =>
        set_statusCode c 400 ;;
        res_end c (Some (error_body "Missing 'device' query parameter"))
    | Some deviceId =>
        if bool_decide (pathname rq = "/subscribe")
           && negb (bool_decide (code = Some (subscriptionKey cfg))) then
          set_statusCode c 403 ;;
          res_end c (Some (error_body "Invalid subscription key"))
        else
          (if bool_decide (pathname rq = "/subscribe")
           then handleSubscribeRequest rq c deviceId
           else ret tt) ;;
          urlParsed ← unbound "urlParsed";
          if bool_decide (pathname urlParsed = "/publish")
             && bool_decide (method rq = "POST") then
            if negb (bool_decide (code = Some (publishKey cfg))) then
              set_statusCode c 400 ;;
              res_end c (Some (error_body "Invalid code"))
            else handlePublishRequest rq c
          else ret tt
    end.

(** [handleRequest], lines 32-98: the [try] block and its [catch]. *)
Definition handleRequest (rq : Request) (c : conn) : M unit :=
  try_catch (handleRequest_try rq c)
    (λ e, set_statusCode c 500 ;; res_end c None).

(** ** Module evaluation, lines 220-237 *)




(** ** Events of the runtime *)

Inductive Event :=
| EvRequest (rq : Request)
| EvBodyEnd (c : conn) (message : string)
| EvFetchResolve (p : nat) (data : string)
| EvFetchReject (p : nat)
| EvClose (c : conn)
| EvTimeout (c : conn)
| EvDestroy (c : conn)
| EvShutdown.

(** A listener or reaction run by the event loop: an exception that leaves
    it is uncaught (an unhandled rejection when it leaves a promise
    reaction). *)
Definition dispatch (m : M unit) (w : World) : World :=
  match m w with
  | (Normal _, w') => w'
  | (Thrown e, w') => set_uncaught (λ l, l ++ [e]) w'
  end.

Definition on_fulfilled (reaction : Reaction) (data : string) : M unit :=
  match reaction with
  | NoReaction => ret tt
  | ThenParse c deviceId => parseDatabaseResponse cfg c deviceId data
  | ThenPublish deviceId =>
      try_catch (sendDataToSubscribers deviceId data) (λ err, ret tt)
  end.

Definition on_rejected (reaction : Reaction) : M unit :=
  match reaction with
  | NoReaction => throw FetchError
  | ThenParse _ _ => throw FetchError
  | ThenPublish _ => ret tt
  end.

Definition listeners_of (c : conn) (ls : list (conn * string)) : list (conn * string) :=
  filter (λ l, l.1 = c) ls.

Definition others_of (c : conn) (ls : list (conn * string)) : list (conn * string) :=
  filter (λ l, l.1 ≠ c) ls.

(** [res.socket.destroyed] *)
Definition socket_destroyed (c : conn) (w : World) : bool :=
  default false (destroyed <$> responses w !! c).

(** The events:
    - a request arrives on a new connection, whose socket is live;
    - the body of a request has been read;
    - an upstream call is fulfilled or rejected;
    - the ['close'] event of a request is emitted;
    - the ['timeout'] event of a live socket is emitted: the listener of the
      http server destroys the socket, then the callbacks installed with
      [setTimeout] run, once each;
    - a socket is destroyed because its peer went away;
    - a signal or [beforeExit] runs [gracefullyShutdown]. *)
Definition react (ev : Event) (w : World) : World :=
  match ev with
  | EvRequest rq =>
      let c := length (responses w) in
      dispatch (handleRequest rq c) (set_responses (λ rs, rs ++ [fresh_response]) w)
  | EvBodyEnd c message =>
      dispatch
        (forEach (listeners_of c (bodyListeners w)) (λ l, onBodyEnd l.1 l.2 message))
        (set_bodyListeners (others_of c) w)
  | EvFetchResolve p data =>
      match pendingFetches w !! p with
      | Some f => dispatch (on_fulfilled f.2 data) (set_pendingFetches (delete p) w)
      | None => w
      end
  | EvFetchReject p =>
      match pendingFetches w !! p with
      | Some f => dispatch (on_rejected f.2) (set_pendingFetches (delete p) w)
      | None => w
      end
  | EvClose c =>
      dispatch
        (forEach (listeners_of c (closeListeners w)) (λ l, onClose l.1 l.2))
        (set_closeListeners (others_of c) w)
  | EvTimeout c =>
      if socket_destroyed c w then w
      else
        dispatch
          (forEach (listeners_of c (timeoutListeners w)) (λ l, onTimeout l.1 l.2))
          (set_timeoutListeners (others_of c) (set_responses (alter destroy c) w))
  | EvDestroy c => set_responses (alter destroy c) w
  | EvShutdown => dispatch gracefullyShutdown w
  end.

Definition run (evs : list Event) (w : World) : World :=
  foldl (λ w ev, react ev w) w evs.

End Server.

(** ** Observations *)

(** The array held for an identifier: [subscribers[deviceId] || []]. *)
Definition held (deviceId : string) (w : World) : list conn :=
  default [] (subscribers w !! deviceId).

(** [Object.keys(subscribers[deviceId] || {}).length], line 130. *)
Definition count (deviceId : string) (w : World) : nat :=
  length (default [] (subscribers w !! deviceId)).

(** The reply that the response of a connection was finished with, if it
    is finished. *)
Definition reply_of (c : conn) (w : World) : option Reply :=
  r ← responses w !! c; sent r.

(** The reply that was written to the socket of a connection, if any: what
    its peer receives. *)
Definition received (c : conn) (w : World) : option Reply :=
  r ← responses w !! c; if delivered r then sent r else None.

(** [w] after [c] was pushed on the array of [deviceId] and the close
    listener of lines 156-159 installed. *)
Definition registered (c : conn) (deviceId : string) (w : World) : World :=
  set_closeListeners (λ ls, ls ++ [(c, deviceId)])
    (set_subscribers (<[deviceId := held deviceId w ++ [c]]>) w).

(** Whether [socket.setTimeout] installs its callback: the socket is live
    and the delay a positive number. *)
Definition armed (msecs : Delay) (c : conn) (w : World) : bool :=
  match responses w !! c, msecs with
  | Some r, Millis n => negb (destroyed r) && negb (n =? 0)%N
  | _, _ => false
  end.

(** The calls of [res.end] made since the log had length [n]. *)
Definition endCalls_since (n : nat) (w : World) : list (conn * option string) :=
  drop n (endCalls w).

(** [res.end(d)] on every connection of [l], from left to right. *)
Definition end_all (l : list conn) (d : option string) (rs : list ServerResponse) : list ServerResponse :=
  foldl (λ rs x, alter (finish d) x rs) rs l.

(** Every connection of the registry, identifier by identifier. *)
Definition all_held (w : World) : list conn :=
  mjoin ((map_to_list (subscribers w)).*2).

(** A computation whose every run is a step of the relation [R]. *)
Definition respects (R : World → World → Prop) {A} (m : M A) : Prop :=
  ∀ w, R w (exec m w).

(** A response that is finished in [w] is finished with the same reply in
    [w'], and what its peer received is the same. *)
Definition keeps_replies (w w' : World) : Prop :=
  ∀ c x, reply_of c w = Some x →
    reply_of c w' = Some x ∧ received c w' = received c w.

(** The registry, the body listeners, the pending upstream calls and the
    number of response objects are those of [w]. *)
Definition same_registry (w w' : World) : Prop :=
  subscribers w' = subscribers w ∧
  bodyListeners w' = bodyListeners w ∧
  pendingFetches w' = pendingFetches w ∧
  length (responses w') = length (responses w).

(** The connections whose upstream result is awaited by
    [parseDatabaseResponse]. *)
Definition parse_conns (fs : list (FetchCall * Reaction)) : list conn :=
  omap (λ f, match f.2 with ThenParse c _ => Some c | _ => None end) fs.

(** The connections between their request and their registration: their
    body is being read or their upstream call is pending. *)
Definition in_flight (w : World) : list conn :=
  parse_conns (pendingFetches w) ++ (bodyListeners w).*1.

Record consistent (w : World) : Prop := mkConsistent {
  held_NoDup : ∀ id, NoDup (held id w);
  in_flight_NoDup : NoDup (in_flight w);
  in_flight_not_held : ∀ c id, c ∈ in_flight w → c ∉ held id w;
  in_flight_allocated : ∀ c, c ∈ in_flight w → c < length (responses w);
  held_allocated : ∀ c id, c ∈ held id w → c < length (responses w)
}.

(** [w'] is [w] with at most one body listener more, for connection [c]. *)
Definition admits (c : conn) (w w' : World) : Prop :=
  ∃ ls, (ls = [] ∨ ∃ id, ls = [(c, id)]) ∧
    subscribers w' = subscribers w ∧
    bodyListeners w' = bodyListeners w ++ ls ∧
    parse_conns (pendingFetches w') = parse_conns (pendingFetches w) ∧
    length (responses w') = length (responses w).

(** [w'] is [w] with some connections removed from the registry. *)
Definition shrinks (w w' : World) : Prop :=
  (∀ id, held id w' `sublist_of` held id w) ∧
  bodyListeners w' = bodyListeners w ∧
  pendingFetches w' = pendingFetches w ∧
  length (responses w') = length (responses w).

(** Every timeout callback that is installed in [w] is installed in [w']. *)
Definition keeps_timers (w w' : World) : Prop :=
  ∀ l, l ∈ timeoutListeners w → l ∈ timeoutListeners w'.

(** The upstream call that the body listener issues for a listener. *)
Definition call_for (message : string) (l : conn * string) : FetchCall :=
  if String.length message <=? 2 then PLC_GetData l.2
  else PLC_GetSetData l.2 message.

(** ** Definitions for the further properties

    The environment [process.env] is a [gmap string string]. *)

(** The five replies that [handleRequest] itself can send. *)
Definition router_replies : list Reply :=
  [ mkReply 200 [] ping_body;
    mkReply 200 [("Access-Control-Allow-Origin", "*")] EmptyString;
    mkReply 400 [] (error_body "Missing 'device' query parameter");
    mkReply 403 [] (error_body "Invalid subscription key");
    mkReply 500 [] EmptyString ].

(** [process.env.NAME || fallback], lines 6-13. *)
Definition env_or (v : option string) (fallback : string) : string :=
  if truthy v then default fallback v else fallback.

(** [process.env.SUBSCRIBER_TIMEOUT || 600000], line 13. *)
Definition delay_or (v : option string) (fallback : N) : Delay :=
  if truthy v then Text (default EmptyString v) else Millis fallback.

(** Lines 7-13: the constants in force for an environment. *)
Definition load_config (env : gmap string string) : Config :=
  mkConfig (env_or (env !! "SUBSCRIPTION_KEY") "test-subscription-key")
           (env_or (env !! "PUBLISH_KEY") "test-publish-key")
           (env_or (env !! "PLC_GET_DATA_KEY") EmptyString)
           (env_or (env !! "PLC_GET_SET_DATA_KEY") EmptyString)
           (delay_or (env !! "SUBSCRIBER_TIMEOUT") 600000%N).

(** [`${v}`] in a template literal: an unset variable prints as [undefined]. *)
Definition interpolate (v : option string) : string := default "undefined" v.

(** Lines 11-12. *)
Definition getPLCGetDataEndpoint (env : gmap string string) (cfg : Config) (deviceId : string) : string :=
  interpolate (env !! "PLC_BASE_URL") +:+ "/api/PLC_GetData/" +:+ deviceId
    +:+ "?code=" +:+ PLC_GetDataKey cfg.

Definition getPLCGetSetDataEndpoint (env : gmap string string) (cfg : Config) (deviceId : string) : string :=
  interpolate (env !! "PLC_BASE_URL") +:+ "/api/PLC_GetSetData/" +:+ deviceId
    +:+ "?code=" +:+ PLC_GetSetDataKey cfg.

(** The URL that [fetch] is given for an upstream call, lines 170 and 175. *)
Definition endpoint_of (env : gmap string string) (cfg : Config) (call : FetchCall) : string :=
  match call with
  | PLC_GetData deviceId => getPLCGetDataEndpoint env cfg deviceId
  | PLC_GetSetData deviceId _ => getPLCGetSetDataEndpoint env cfg deviceId
  end.

(** A step inside one handler: no response object is created, nothing is
    added to [uncaught], no key of the registry is deleted, and a close
    listener that was added is for a key of the registry. *)
Definition grows (w w' : World) : Prop :=
  length (responses w') = length (responses w) ∧
  uncaught w' = uncaught w ∧
  (∀ id, is_Some (subscribers w !! id) → is_Some (subscribers w' !! id)) ∧
  (∀ l, l ∈ closeListeners w' →
     l ∈ closeListeners w ∨ is_Some (subscribers w' !! l.2)).

(** Every close listener is for a key of the registry. *)
Definition close_listeners_keyed (w : World) : Prop :=
  ∀ l, l ∈ closeListeners w → is_Some (subscribers w !! l.2).

(** Every connection accepted so far has been answered by the router, and
    the answer was written to its socket. *)
Definition all_answered (w : World) : Prop :=
  ∀ c, c < length (responses w) →
    ∃ x, reply_of c w = Some x ∧ received c w = Some x ∧ x ∈ router_replies.

(** No own property of the registry has the name of a member of
    [Object.prototype]. *)
Definition prototype_free (w : World) : Prop :=
  ∀ id, prototype_member id = true → subscribers w !! id = None.

(** A step that creates no such property. *)
Definition stays_prototype_free (w w' : World) : Prop :=
  prototype_free w → prototype_free w'.

(** If the socket of [c] is destroyed in [w], it is destroyed in [w'], and
    a peer that had received nothing has received nothing. *)
Definition stays_lost (c : conn) (w w' : World) : Prop :=
  socket_destroyed c w = true →
  socket_destroyed c w' = true ∧ (received c w = None → received c w' = None).

(** No pending upstream call has the reaction of the publish path. *)
Definition no_publish_pending (w : World) : Prop :=
  Forall (λ f, ∀ id, f.2 ≠ ThenPublish id) (pendingFetches w).

(** A step that chains no publish reaction. *)
Definition chains_no_publish (w w' : World) : Prop :=
  no_publish_pending w → no_publish_pending w'.

(** * Verification *)

Ltac unfold_M :=
  unfold mbind, M_bind, mret, M_ret, bind, ret, throw, unbound, try_catch,
    gets, modify, exec, outcome in *.

Ltac unfold_set :=
  unfold set_subscribers, set_responses, set_endCalls, set_closeListeners,
    set_timeoutListeners, set_bodyListeners, set_pendingFetches, set_uncaught,
    set_exitTimers, set_listening, set_warnings, set_signalHandlers in *.

Ltac msimpl := unfold_M; unfold_set; cbn.

(** ** Response objects *)

Lemma finish_open d r :
  sent r = None →
  finish d r = mkServerResponse (statusCode r) (headers r)
                 (Some (mkReply (statusCode r) (headers r) (default EmptyString d)))
                 (destroyed r) (negb (destroyed r)).
Proof. intros E. unfold finish. by rewrite E. Qed.

Lemma finish_finished d r : is_Some (sent r) → finish d r = r.
Proof. intros [x E]. unfold finish. by rewrite E. Qed.

Lemma finish_is_finished d r : is_Some (sent (finish d r)).
Proof. unfold finish. destruct (sent r) eqn:E; cbn; rewrite ?E; eauto. Qed.

Lemma finish_finish d d' r : finish d (finish d' r) = finish d' r.
Proof. apply finish_finished, finish_is_finished. Qed.

Lemma finish_keeps_sent d r x : sent r = Some x → sent (finish d r) = Some x.
Proof. intros E. rewrite finish_finished; eauto. Qed.

Lemma finish_destroyed d r : destroyed (finish d r) = destroyed r.
Proof. unfold finish. by destruct (sent r). Qed.

Lemma res_end_exec c d w :
  res_end c d w =
  (Normal tt,
   set_responses (alter (finish d) c) (set_endCalls (λ E, E ++ [(c, d)]) w)).
Proof. reflexivity. Qed.

Lemma forEach_res_end (l : list conn) (d : option string) (w : World) :
  forEach l (λ res, res_end res d) w =
  (Normal tt,
   set_responses (end_all l d)
     (set_endCalls (λ E, E ++ ((λ x, (x, d)) <$> l)) w)).
Proof.
  revert w. induction l as [|x l IH]; intros w.
  - destruct w; msimpl. by rewrite app_nil_r.
  - cbn [forEach]. unfold mbind, M_bind, bind. rewrite res_end_exec, IH.
    destruct w; unfold_set; cbn. by rewrite <- app_assoc.
Qed.

Lemma end_all_app l1 l2 d rs :
  end_all (l1 ++ l2) d rs = end_all l2 d (end_all l1 d rs).
Proof. unfold end_all. apply foldl_app. Qed.

Lemma end_all_lookup (l : list conn) d (rs : list ServerResponse) (x : conn) :
  end_all l d rs !! x = (if decide (x ∈ l) then finish d else id) <$> rs !! x.
Proof.
  revert rs. induction l as [|y l IH]; intros rs; cbn.
  - rewrite decide_False by apply not_elem_of_nil. by destruct (rs !! x).
  - fold (end_all l d (alter (finish d) y rs)). rewrite IH.
    destruct (decide (x = y)) as [->|Hne].
    + rewrite list_lookup_alter_eq.
      rewrite (decide_True (P := y ∈ y :: l)) by (apply elem_of_cons; by left).
      destruct (rs !! y) as [r|] eqn:E; destruct (decide (y ∈ l)); cbn;
        by rewrite ?finish_finish.
    + rewrite list_lookup_alter_ne by done.
      destruct (decide (x ∈ l)).
      * rewrite decide_True; [done | apply elem_of_cons; by right].
      * rewrite decide_False; [done |]. rewrite elem_of_cons. tauto.
Qed.


(** What [end_all] makes of an open response. *)
Lemma end_all_open l d rs x r :
  x ∈ l → rs !! x = Some r → sent r = None →
  end_all l d rs !! x =
  Some (mkServerResponse (statusCode r) (headers r)
          (Some (mkReply (statusCode r) (headers r) (default EmptyString d)))
          (destroyed r) (negb (destroyed r))).
Proof.
  intros Hx Hr Hs. rewrite end_all_lookup, Hr, decide_True by done. cbn.
  by rewrite finish_open.
Qed.

(** ** The registry operations in closed form *)

Lemma property_own subs id l : subs !! id = Some l → property subs id = Own l.
Proof. intros E. unfold property. by rewrite E. Qed.

Lemma property_plain subs id :
  prototype_member id = false →
  property subs id = match subs !! id with Some l => Own l | None => Undefined end.
Proof. intros E. unfold property. by rewrite E. Qed.

Lemma property_not_inherited subs id :
  prototype_member id = false → property subs id ≠ Inherited.
Proof. intros E. rewrite property_plain by done. by destruct (subs !! id). Qed.

Lemma property_inherited subs id :
  property subs id = Inherited ↔ subs !! id = None ∧ prototype_member id = true.
Proof.
  unfold property. destruct (subs !! id); [split; [done | by intros []]|].
  destruct (prototype_member id); split; (done || by intros []).
Qed.

Lemma armed_frame d c w w' : responses w' = responses w → armed d c w' = armed d c w.
Proof. intros E. unfold armed. by rewrite E. Qed.

Lemma socket_setTimeout_exec c d id w :
  exec (socket_setTimeout c d id) w =
  if armed d c w then set_timeoutListeners (λ ls, ls ++ [(c, id)]) w else w.
Proof.
  unfold socket_setTimeout, armed, exec. unfold_M. cbn.
  destruct (responses w !! c) as [r|]; [|by destruct d].
  destruct (destroyed r), d as [n|s]; cbn; try done.
  by destruct (n =? 0)%N.
Qed.

Lemma socket_setTimeout_number c n id w :
  outcome (socket_setTimeout c (Millis n) id) w = Normal tt.
Proof.
  unfold socket_setTimeout, outcome. unfold_M. cbn.
  destruct (responses w !! c) as [r|]; [|done].
  destruct (destroyed r); [done|]. by destruct (n =? 0)%N.
Qed.

Lemma socket_setTimeout_text c s id w r :
  responses w !! c = Some r → destroyed r = false →
  socket_setTimeout c (Text s) id w = (Thrown (TypeError "ERR_INVALID_ARG_TYPE"), w).
Proof.
  intros Hr Hd. unfold socket_setTimeout. unfold_M. cbn. by rewrite Hr, Hd.
Qed.

Lemma socket_setTimeout_destroyed c d id w r :
  responses w !! c = Some r → destroyed r = true →
  socket_setTimeout c d id w = (Normal tt, w).
Proof.
  intros Hr Hd. unfold socket_setTimeout. unfold_M. cbn. by rewrite Hr, Hd.
Qed.

Lemma saveSubscriber_registers cfg c id w :
  property (subscribers w) id ≠ Inherited →
  saveSubscriber cfg c id w =
  socket_setTimeout c (subscriberTimeout cfg) id (registered c id w).
Proof.
  intros Hp. unfold saveSubscriber, the_array, registered, held, property in *.
  destruct w as [subs ?]; cbn [subscribers] in Hp; msimpl.
  destruct (subs !! id) as [l|] eqn:E; msimpl.
  - by rewrite E.
  - destruct (prototype_member id); [done|]. cbn.
    rewrite lookup_insert_eq. cbn. by rewrite insert_insert_eq.
Qed.

Lemma saveSubscriber_inherited cfg c id w :
  property (subscribers w) id = Inherited →
  saveSubscriber cfg c id w = (Thrown (TypeError "is not a function"), w).
Proof.
  intros Hp. unfold saveSubscriber, the_array. unfold_M. cbn.
  by repeat (rewrite Hp; cbn).
Qed.

(** The state that [saveSubscriber] leaves, whether or not it throws. *)
Lemma saveSubscriber_exec cfg c id w :
  exec (saveSubscriber cfg c id) w =
  match property (subscribers w) id with
  | Inherited => w
  | _ =>
      if armed (subscriberTimeout cfg) c w
      then set_timeoutListeners (λ ls, ls ++ [(c, id)]) (registered c id w)
      else registered c id w
  end.
Proof.
  destruct (property (subscribers w) id) eqn:Hp.
  - unfold exec at 1. rewrite saveSubscriber_registers by congruence.
    fold (exec (socket_setTimeout c (subscriberTimeout cfg) id) (registered c id w)).
    by rewrite socket_setTimeout_exec.
  - unfold exec. by rewrite saveSubscriber_inherited.
  - unfold exec at 1. rewrite saveSubscriber_registers by congruence.
    fold (exec (socket_setTimeout c (subscriberTimeout cfg) id) (registered c id w)).
    by rewrite socket_setTimeout_exec.
Qed.

Lemma sendDataToSubscribers_exec id data w :
  property (subscribers w) id ≠ Inherited →
  sendDataToSubscribers id data w =
  (Normal tt,
   set_subscribers (<[id := []]>)
     (set_responses (end_all (held id w) (Some data))
        (set_endCalls (λ E, E ++ ((λ x, (x, Some data)) <$> held id w)) w))).
Proof.
  intros Hp. unfold sendDataToSubscribers, the_array, held.
  unfold_M. cbn.
  destruct (subscribers w !! id) as [l|] eqn:E.
  - repeat (rewrite (property_own _ _ _ E); cbn).
    rewrite forEach_res_end. by destruct w.
  - assert (Hu : property (subscribers w) id = Undefined).
    { unfold property in *. rewrite E in *. by destruct (prototype_member id). }
    repeat (rewrite Hu; cbn).
    destruct w; unfold_set; cbn. by rewrite app_nil_r.
Qed.

Lemma sendDataToSubscribers_inherited id data w :
  property (subscribers w) id = Inherited →
  sendDataToSubscribers id data w = (Thrown (TypeError "is not a function"), w).
Proof.
  intros Hp. unfold sendDataToSubscribers, the_array. unfold_M. cbn.
  by repeat (rewrite Hp; cbn).
Qed.

Lemma onClose_exec c id w l :
  subscribers w !! id = Some l →
  onClose c id w =
  (Normal tt, set_subscribers (<[id := filter (λ s, s ≠ c) l]>) w).
Proof.
  intros E. unfold onClose, the_array, property. unfold_M. cbn. by rewrite E.
Qed.

Lemma onClose_throws c id w :
  subscribers w !! id = None → ∃ e, onClose c id w = (Thrown e, w).
Proof.
  intros E. unfold onClose, the_array, property. unfold_M. cbn. rewrite E.
  destruct (prototype_member id); eauto.
Qed.


Lemma not_elem_of_filter_ne (c : conn) (l : list conn) :
  c ∉ filter (λ s, s ≠ c) l.
Proof. rewrite list_elem_of_filter. tauto. Qed.

Lemma held_registered c id id' w :
  held id' (registered c id w) =
  if decide (id = id') then held id w ++ [c] else held id' w.
Proof.
  unfold held at 1, registered. cbn. case_decide as Hid.
  - subst id'. by rewrite lookup_insert_eq.
  - by rewrite lookup_insert_ne.
Qed.

(** ** C1: register, then broadcast *)

Lemma held_saveSubscriber cfg c id id' w :
  property (subscribers w) id ≠ Inherited →
  held id' (exec (saveSubscriber cfg c id) w) =
  if decide (id = id') then held id w ++ [c] else held id' w.
Proof.
  intros Hp. rewrite saveSubscriber_exec, <- held_registered.
  destruct (property (subscribers w) id); [|done|]; by destruct (armed _ _ _).
Qed.




(** ** C2: the freshness classifier *)

(** C2.  A payload is classified [Empty] exactly when its length is at most 2
    and [Real] otherwise; the classification depends on the length alone.
    It is the test that [parseDatabaseResponse] (line 186) and the POST body
    listener (line 112) branch on. *)
Theorem classify_by_length (p : string) :
  (classify p = Empty ↔ String.length p ≤ 2) ∧
  (classify p = Real ↔ 2 < String.length p) ∧
  (∀ q, String.length q = String.length p → classify q = classify p) ∧
  (∀ cfg c id,
     parseDatabaseResponse cfg c id p =
     match classify p with
     | Empty => saveSubscriber cfg c id
     | Real => sendDataToSubscribers id p ;; res_end c (Some p)
     end) ∧
  (∀ c id,
     onBodyEnd c id p =
     match classify p with
     | Empty => q ← GetDeviceData id; then_ q (ThenParse c id)
     | Real => q ← GetSetDeviceData id p; then_ q (ThenParse c id)
     end).
Proof.
  unfold classify, parseDatabaseResponse, onBodyEnd.
  split_and!.
  - destruct (Nat.leb_spec (String.length p) 2); split; (done || lia).
  - destruct (Nat.leb_spec (String.length p) 2); split; (done || lia).
  - intros q ->. done.
  - intros cfg c id. by destruct (String.length p <=? 2).
  - intros c id. by destruct (String.length p <=? 2).
Qed.

(** ** C7: shutdown *)

Lemma forEach_entries (es : list (string * list conn)) d w :
  forEach es (λ entry, forEach entry.2 (λ res, res_end res d)) w =
  (Normal tt,
   set_responses (end_all (mjoin es.*2) d)
     (set_endCalls (λ E, E ++ ((λ x, (x, d)) <$> mjoin es.*2)) w)).
Proof.
  revert w. induction es as [|e es IH]; intros w.
  - destruct w; msimpl. by rewrite app_nil_r.
  - cbn [forEach]. unfold mbind at 1, M_bind, bind. rewrite forEach_res_end, IH.
    change (mjoin (e :: es).*2) with (e.2 ++ mjoin es.*2).
    destruct w; unfold_set;
      cbn [subscribers responses endCalls closeListeners timeoutListeners
           bodyListeners pendingFetches uncaught exitTimers listening
           warnings signalHandlers].
    by rewrite end_all_app, fmap_app, app_assoc.
Qed.

Lemma gracefullyShutdown_exec w :
  gracefullyShutdown w =
  (Normal tt,
   set_exitTimers S
     (set_responses (end_all (all_held w) None)
        (set_endCalls (λ E, E ++ ((λ x, (x, None)) <$> all_held w)) w))).
Proof.
  unfold gracefullyShutdown, all_held. unfold_M. cbn.
  rewrite forEach_entries. by destruct w.
Qed.




(** ** C6: the timeout callback and the close listener *)

Lemma forEach_onTimeout (ls : list (conn * string)) w :
  forEach ls (λ l, onTimeout l.1 l.2) w =
  (Normal tt,
   set_responses (end_all ls.*1 None)
     (set_endCalls (λ E, E ++ ((λ l, (l.1, None)) <$> ls)) w)).
Proof.
  revert w. induction ls as [|[c id] ls IH]; intros w.
  - destruct w; msimpl. by rewrite app_nil_r.
  - cbn [forEach]. unfold mbind, M_bind, bind, onTimeout.
    rewrite res_end_exec, IH.
    destruct w; unfold_set; cbn. by rewrite <- app_assoc.
Qed.

(** The ['timeout'] event of a live socket, in closed form. *)
Lemma react_timeout cfg c w :
  socket_destroyed c w = false →
  react cfg (EvTimeout c) w =
  set_responses (end_all (listeners_of c (timeoutListeners w)).*1 None)
    (set_endCalls
       (λ E, E ++ ((λ l, (l.1, None)) <$> listeners_of c (timeoutListeners w)))
       (set_timeoutListeners (others_of c)
          (set_responses (alter destroy c) w))).
Proof.
  intros Hd. cbn [react]. rewrite Hd. unfold dispatch.
  by rewrite forEach_onTimeout.
Qed.

(** C6 as stated fails: when the timeout of a held connection fires, the
    socket is destroyed before the callback runs, so the [end] call of the
    callback writes nothing and the peer receives no reply; and the
    connection is still in the array of its identifier, where the next
    broadcast drains it and calls [end] on it. *)
Lemma timeout_leaves_registry_entry :
  let w0 := set_responses (λ _, [fresh_response]) initial_world in
  let w1 := exec (saveSubscriber default_config 0 "dev-1") w0 in
  let w2 := react default_config (EvTimeout 0) w1 in
  let w3 := exec (sendDataToSubscribers "dev-1" "42.5") w2 in
  timeoutListeners w1 = [(0, "dev-1")] ∧
  socket_destroyed 0 w2 = true ∧
  endCalls w2 = [(0, None)] ∧
  received 0 w2 = None ∧
  0 ∈ held "dev-1" w2 ∧
  endCalls_since (length (endCalls w2)) w3 = [(0, Some "42.5")] ∧
  received 0 w3 = None.
Proof.
  split_and!; try reflexivity.
  vm_compute. apply elem_of_cons. by left.
Qed.

(** C6, amended.  Let [id] name no member of [Object.prototype] and let the
    timeout delay be a positive number.  [saveSubscriber] installs the
    timeout callback and the close listener of an open connection on a live
    socket.  When the timeout fires, the socket is destroyed and then the
    callback calls [res.end()]: the response is finished, nothing is written
    to the peer, and the registry is left as it is, so the connection is
    still held; the close listener then removes it, and the array a later
    broadcast drains does not contain it. *)
Theorem timeout_resolves_close_removes
    (cfg : Config) (id : string) (c : conn) (r : ServerResponse) (n : N) (w : World) :
  prototype_member id = false →
  subscriberTimeout cfg = Millis n →
  n ≠ 0%N →
  responses w !! c = Some r →
  sent r = None →
  destroyed r = false →
  let w1 := exec (saveSubscriber cfg c id) w in
  let w2 := react cfg (EvTimeout c) w1 in
  let w3 := exec (onClose c id) w2 in
  outcome (saveSubscriber cfg c id) w = Normal tt ∧
  (c, id) ∈ timeoutListeners w1 ∧
  (c, id) ∈ closeListeners w1 ∧
  (∃ calls, endCalls w2 = endCalls w1 ++ calls ++ [(c, None)]) ∧
  responses w2 !! c =
    Some (mkServerResponse (statusCode r) (headers r)
            (Some (mkReply (statusCode r) (headers r) EmptyString)) true false) ∧
  received c w2 = None ∧
  uncaught w2 = uncaught w1 ∧
  subscribers w2 = subscribers w1 ∧
  c ∈ held id w2 ∧
  outcome (onClose c id) w2 = Normal tt ∧
  held id w3 = filter (λ s, s ≠ c) (held id w) ∧
  c ∉ held id w3.
Proof.
  intros Hid Hn Hn0 Hr Hs Hd w1 w2 w3.
  assert (Hp : property (subscribers w) id ≠ Inherited)
    by by apply property_not_inherited.
  assert (Ha : armed (subscriberTimeout cfg) c w = true).
  { unfold armed. rewrite Hr, Hn, Hd. cbn. by apply N.eqb_neq in Hn0 as ->. }
  assert (H1 : w1 = set_timeoutListeners (λ ls, ls ++ [(c, id)]) (registered c id w)).
  { unfold w1. rewrite saveSubscriber_exec, Ha.
    by destruct (property (subscribers w) id). }
  assert (Hl : listeners_of c (timeoutListeners w1) =
               listeners_of c (timeoutListeners w) ++ [(c, id)]).
  { rewrite H1. cbn. unfold listeners_of. rewrite filter_app.
    by rewrite (filter_cons_True _ (c, id)). }
  assert (H2 : w2 =
    set_responses (end_all (listeners_of c (timeoutListeners w1)).*1 None)
      (set_endCalls
         (λ E, E ++ ((λ l, (l.1, None)) <$> listeners_of c (timeoutListeners w1)))
         (set_timeoutListeners (others_of c)
            (set_responses (alter destroy c) w1)))).
  { unfold w2. apply react_timeout. unfold socket_destroyed.
    rewrite H1. cbn. by rewrite Hr. }
  assert (Hr2 : responses w2 !! c =
    Some (mkServerResponse (statusCode r) (headers r)
            (Some (mkReply (statusCode r) (headers r) EmptyString)) true false)).
  { rewrite H2. cbn [responses set_responses set_endCalls set_timeoutListeners].
    rewrite (end_all_open _ _ _ c (destroy r)); [done | | | done].
    - rewrite Hl, fmap_app. apply elem_of_app. right. by apply list_elem_of_singleton.
    - rewrite list_lookup_alter_eq, H1. cbn. by rewrite Hr. }
  assert (Hs2 : subscribers w2 = subscribers w1) by by rewrite H2.
  assert (Hh2 : subscribers w2 !! id = Some (held id w ++ [c])).
  { rewrite Hs2, H1. cbn. by rewrite lookup_insert_eq. }
  assert (H3 : onClose c id w2 =
    (Normal tt, set_subscribers (<[id := filter (λ s, s ≠ c) (held id w ++ [c])]>) w2))
    by by apply onClose_exec.
  assert (Hh : held id w3 = filter (λ s, s ≠ c) (held id w)).
  { unfold w3, exec. rewrite H3. unfold held at 1. cbn.
    rewrite lookup_insert_eq. cbn. rewrite filter_app.
    rewrite (filter_cons_False _ c) by (intros ?; done). by rewrite app_nil_r. }
  split_and!.
  - unfold outcome. rewrite saveSubscriber_registers, Hn by done.
    apply socket_setTimeout_number.
  - rewrite H1. cbn. apply elem_of_app. right. by apply list_elem_of_singleton.
  - rewrite H1. cbn. apply elem_of_app. right. by apply list_elem_of_singleton.
  - exists ((λ l, (l.1, None)) <$> listeners_of c (timeoutListeners w)).
    rewrite H2. cbn [endCalls set_responses set_endCalls]. by rewrite Hl, fmap_app.
  - done.
  - unfold received. by rewrite Hr2.
  - by rewrite H2.
  - done.
  - unfold held. rewrite Hh2. cbn. apply elem_of_app. right.
    by apply list_elem_of_singleton.
  - unfold outcome. by rewrite H3.
  - done.
  - rewrite Hh. apply not_elem_of_filter_ne.
Qed.

Lemma timeout_resolves_close_removes_witness :
  let w := set_responses (λ _, [fresh_response]) initial_world in
  let w1 := exec (saveSubscriber default_config 0 "dev-1") w in
  let w2 := react default_config (EvTimeout 0) w1 in
  let w3 := exec (onClose 0 "dev-1") w2 in
  prototype_member "dev-1" = false ∧
  subscriberTimeout default_config = Millis 600000%N ∧
  600000%N ≠ 0%N ∧
  responses w !! 0 = Some fresh_response ∧
  sent fresh_response = None ∧
  destroyed fresh_response = false ∧
  received 0 w2 = None ∧
  0 ∈ held "dev-1" w2 ∧
  0 ∉ held "dev-1" w3.
Proof.
  intros w w1 w2 w3.
  assert (Hn : 600000%N ≠ 0%N) by done.
  destruct (timeout_resolves_close_removes default_config "dev-1" 0 fresh_response
              600000%N w eq_refl eq_refl Hn eq_refl eq_refl eq_refl)
    as (_ & _ & _ & _ & _ & Hr & _ & _ & Hh & _ & _ & Hc).
  split_and!; [reflexivity | reflexivity | exact Hn | reflexivity | reflexivity
              | reflexivity | exact Hr | exact Hh | exact Hc].
Defined.

(** ** Steps that respect a preorder on worlds *)

Section Respects.

Context (R : World → World → Prop) `{!PreOrder R}.

Lemma respects_ret {A} (a : A) : respects R (ret a).
Proof. by intros w. Qed.

Lemma respects_throw {A} e : respects R (@throw A e).
Proof. by intros w. Qed.

Lemma respects_unbound {A} x : respects R (@unbound A x).
Proof. by intros w. Qed.

Lemma respects_gets {A} (f : World → A) : respects R (gets f).
Proof. by intros w. Qed.

Lemma respects_modify f : (∀ w, R w (f w)) → respects R (modify f).
Proof. intros Hf w. apply Hf. Qed.

Lemma respects_bind {A B} (m : M A) (k : A → M B) :
  respects R m → (∀ a, respects R (k a)) → respects R (m ≫= k).
Proof.
  intros Hm Hk w. specialize (Hm w). unfold exec, mbind, M_bind, bind in *.
  destruct (m w) as [[a|e] w']; cbn in *; [|done].
  etrans; [done|]. apply Hk.
Qed.

Lemma respects_try_catch {A} (m : M A) (h : Exn → M A) :
  respects R m → (∀ e, respects R (h e)) → respects R (try_catch m h).
Proof.
  intros Hm Hh w. specialize (Hm w). unfold exec, try_catch in *.
  destruct (m w) as [[a|e] w']; cbn in *; [done|].
  etrans; [done|]. apply Hh.
Qed.

Lemma respects_forEach {A} (l : list A) (f : A → M unit) :
  (∀ x, respects R (f x)) → respects R (forEach l f).
Proof.
  intros Hf. induction l as [|x l IH]; cbn [forEach].
  - apply respects_ret.
  - by apply respects_bind.
Qed.

Lemma respects_dispatch (m : M unit) w :
  (∀ w f, R w (set_uncaught f w)) → respects R m → R w (dispatch m w).
Proof.
  intros Hu Hm. specialize (Hm w). unfold dispatch, exec in *.
  destruct (m w) as [[a|e] w']; cbn in *; [done|].
  etrans; [done|]. apply Hu.
Qed.

End Respects.

(** ** C5: what a resolved connection was sent never changes *)

#[local] Instance keeps_replies_preorder : PreOrder keeps_replies.
Proof.
  split.
  - by intros w c x.
  - intros w1 w2 w3 H12 H23 c x Hx.
    destruct (H12 c x Hx) as [H1 H1']. destruct (H23 c x H1) as [H2 H2'].
    split; [done | congruence].
Qed.

Lemma keeps_replies_frame w w' : responses w' = responses w → keeps_replies w w'.
Proof. intros E c x. unfold reply_of, received. by rewrite E. Qed.

Lemma keeps_replies_alter (f : ServerResponse → ServerResponse) i w :
  (∀ r x, sent r = Some x → sent (f r) = Some x ∧ delivered (f r) = delivered r) →
  keeps_replies w (set_responses (alter f i) w).
Proof.
  intros Hf c x. unfold reply_of, received. cbn.
  destruct (decide (i = c)) as [->|Hne].
  - rewrite list_lookup_alter_eq.
    destruct (responses w !! c) as [r|]; cbn; [|done].
    intros Hx. destruct (Hf r x Hx) as [-> ->]. by rewrite Hx.
  - by rewrite list_lookup_alter_ne.
Qed.

Lemma keeps_replies_alloc w r :
  keeps_replies w (set_responses (λ rs, rs ++ [r]) w).
Proof.
  intros c x. unfold reply_of, received. cbn.
  destruct (responses w !! c) as [r0|] eqn:E; cbn; [|done].
  intros Hx. by rewrite (lookup_app_l_Some _ _ _ _ E).
Qed.

Lemma keeps_replies_modify f :
  (∀ w, responses (f w) = responses w) → respects keeps_replies (modify f).
Proof. intros Hf. apply respects_modify. intros w. by apply keeps_replies_frame. Qed.

Lemma keeps_replies_set_statusCode c n : respects keeps_replies (set_statusCode c n).
Proof.
  apply respects_modify. intros w. by apply keeps_replies_alter.
Qed.

Lemma keeps_replies_res_end c d : respects keeps_replies (res_end c d).
Proof.
  apply respects_bind; [apply _ | by apply keeps_replies_modify |]. intros _.
  apply respects_modify. intros w. apply keeps_replies_alter.
  intros r x Hx. by rewrite finish_finished by eauto.
Qed.

Lemma keeps_replies_setHeader c name value :
  respects keeps_replies (setHeader c name value).
Proof.
  intros w. unfold setHeader. unfold_M. cbn.
  destruct (responses w !! c) as [r|] eqn:E; [|done].
  destruct (sent r) as [x|] eqn:Es; cbn; [done|].
  intros c' x. unfold reply_of, received. cbn.
  destruct (decide (c = c')) as [<-|Hne].
  - by rewrite E; cbn; rewrite Es.
  - by rewrite list_lookup_insert_ne.
Qed.

Lemma keeps_replies_destroy c w :
  keeps_replies w (set_responses (alter destroy c) w).
Proof. by apply keeps_replies_alter. Qed.

Create HintDb respect.

#[local] Hint Resolve keeps_replies_set_statusCode keeps_replies_res_end
  keeps_replies_setHeader : respect.

(** Breaks a handler down to its primitive steps; [frame] is a rule of the
    relation at hand for the steps that do not bear on it. *)
Ltac respect_with frame :=
  repeat first
    [ match goal with |- PreOrder _ => apply _ end
    | progress auto with respect
    | apply respects_ret
    | apply respects_throw
    | apply respects_unbound
    | apply respects_gets
    | apply respects_bind; [apply _ | | intros ?]
    | apply respects_try_catch; [apply _ | | intros ?]
    | apply respects_forEach; [apply _ | intros ?]
    | frame
    | match goal with
      | |- respects _ (if ?b then _ else _) => destruct b
      | |- respects _ (match ?o with _ => _ end) => destruct o
      end ].

Ltac respect :=
  respect_with ltac:(apply keeps_replies_modify; intros ?; reflexivity).

Lemma keeps_replies_saveSubscriber cfg c id :
  respects keeps_replies (saveSubscriber cfg c id).
Proof. unfold saveSubscriber, the_array, socket_setTimeout. respect. Qed.

Lemma keeps_replies_onClose c id : respects keeps_replies (onClose c id).
Proof. unfold onClose, the_array. respect. Qed.

Lemma keeps_replies_onTimeout c id : respects keeps_replies (onTimeout c id).
Proof. unfold onTimeout. respect. Qed.

Lemma keeps_replies_sendDataToSubscribers id data :
  respects keeps_replies (sendDataToSubscribers id data).
Proof. unfold sendDataToSubscribers, the_array. respect. Qed.

Lemma keeps_replies_gracefullyShutdown : respects keeps_replies gracefullyShutdown.
Proof. unfold gracefullyShutdown. respect. Qed.

Lemma keeps_replies_GetDeviceData id : respects keeps_replies (GetDeviceData id).
Proof. unfold GetDeviceData. respect. Qed.

Lemma keeps_replies_GetSetDeviceData id b :
  respects keeps_replies (GetSetDeviceData id b).
Proof. unfold GetSetDeviceData. respect. Qed.

Lemma keeps_replies_then_ p r : respects keeps_replies (then_ p r).
Proof. unfold then_. respect. Qed.

#[local] Hint Resolve keeps_replies_saveSubscriber keeps_replies_onClose
  keeps_replies_onTimeout keeps_replies_sendDataToSubscribers
  keeps_replies_gracefullyShutdown keeps_replies_GetDeviceData
  keeps_replies_GetSetDeviceData keeps_replies_then_ : respect.

Lemma keeps_replies_parseDatabaseResponse cfg c id data :
  respects keeps_replies (parseDatabaseResponse cfg c id data).
Proof. unfold parseDatabaseResponse. respect. Qed.

Lemma keeps_replies_onBodyEnd c id message :
  respects keeps_replies (onBodyEnd c id message).
Proof. unfold onBodyEnd. respect. Qed.

Lemma keeps_replies_handleSubscribeRequest rq c id :
  respects keeps_replies (handleSubscribeRequest rq c id).
Proof. unfold handleSubscribeRequest. respect. Qed.

Lemma keeps_replies_handlePublishRequest rq c :
  respects keeps_replies (handlePublishRequest rq c).
Proof. unfold handlePublishRequest. respect. Qed.

#[local] Hint Resolve keeps_replies_parseDatabaseResponse keeps_replies_onBodyEnd
  keeps_replies_handleSubscribeRequest keeps_replies_handlePublishRequest : respect.

Lemma keeps_replies_handleRequest cfg rq c :
  respects keeps_replies (handleRequest cfg rq c).
Proof. unfold handleRequest, handleRequest_try. respect. Qed.

Lemma keeps_replies_on_fulfilled cfg reaction data :
  respects keeps_replies (on_fulfilled cfg reaction data).
Proof. unfold on_fulfilled. respect. Qed.

Lemma keeps_replies_on_rejected reaction :
  respects keeps_replies (on_rejected reaction).
Proof. unfold on_rejected. respect. Qed.

#[local] Hint Resolve keeps_replies_handleRequest keeps_replies_on_fulfilled
  keeps_replies_on_rejected : respect.

Lemma keeps_replies_dispatch (m : M unit) w :
  respects keeps_replies m → keeps_replies w (dispatch m w).
Proof.
  apply respects_dispatch; [apply _|]. intros w' f. by apply keeps_replies_frame.
Qed.

Lemma keeps_replies_react cfg ev w : keeps_replies w (react cfg ev w).
Proof.
  destruct ev; cbn [react].
  - etrans; [apply keeps_replies_alloc|].
    apply keeps_replies_dispatch. respect.
  - etrans; [|apply keeps_replies_dispatch; respect].
    by apply keeps_replies_frame.
  - destruct (pendingFetches w !! p); [|done].
    etrans; [|apply keeps_replies_dispatch; respect].
    by apply keeps_replies_frame.
  - destruct (pendingFetches w !! p); [|done].
    etrans; [|apply keeps_replies_dispatch; respect].
    by apply keeps_replies_frame.
  - etrans; [|apply keeps_replies_dispatch; respect].
    by apply keeps_replies_frame.
  - destruct (socket_destroyed c w); [done|].
    etrans; [apply (keeps_replies_destroy c)|].
    etrans; [|apply keeps_replies_dispatch; respect].
    by apply keeps_replies_frame.
  - apply keeps_replies_destroy.
  - apply keeps_replies_dispatch. respect.
Qed.


(** *** No handler removes a timeout callback *)

#[local] Instance keeps_timers_preorder : PreOrder keeps_timers.
Proof. split; [by intros w l | intros w1 w2 w3 H12 H23 l ?; auto]. Qed.











(** ** C10: module evaluation *)


(** ** The router *)

Lemma lookup_last {A} (l : list A) (x : A) : (l ++ [x]) !! length l = Some x.
Proof. by apply list_lookup_middle. Qed.

Lemma alter_last {A} (f : A → A) (l : list A) (x : A) :
  alter f (length l) (l ++ [x]) = l ++ [f x].
Proof. by rewrite alter_app_r_alt, Nat.sub_diag by lia. Qed.

Lemma insert_last {A} (l : list A) (x y : A) :
  <[length l := y]> (l ++ [x]) = l ++ [y].
Proof. by rewrite insert_app_r_alt, Nat.sub_diag by lia. Qed.

Lemma handlePublishRequest_exec rq c w :
  handlePublishRequest rq c w = (Thrown (ReferenceError "deviceId"), w).
Proof. reflexivity. Qed.

Lemma handleSubscribeRequest_GET rq c id w :
  method rq = "GET" →
  handleSubscribeRequest rq c id w =
  (Thrown (ReferenceError "parseFunctionResponse"),
   set_pendingFetches (λ l, l ++ [(PLC_GetData id, NoReaction)]) w).
Proof. intros E. unfold handleSubscribeRequest. rewrite E. reflexivity. Qed.

Lemma handleSubscribeRequest_POST rq c id w :
  method rq = "POST" →
  handleSubscribeRequest rq c id w =
  (Normal tt, set_bodyListeners (λ ls, ls ++ [(c, id)]) w).
Proof. intros E. unfold handleSubscribeRequest. rewrite E. reflexivity. Qed.

Lemma handleSubscribeRequest_other rq c id w :
  method rq ≠ "POST" → method rq ≠ "GET" →
  handleSubscribeRequest rq c id w = (Normal tt, w).
Proof.
  intros E1 E2. unfold handleSubscribeRequest.
  by rewrite !bool_decide_false.
Qed.

Ltac last_simpl :=
  repeat (first [rewrite lookup_last | rewrite alter_last | rewrite insert_last];
          cbn).

Ltac bd :=
  repeat match goal with
    | |- context [bool_decide ?P] =>
        first [ rewrite (bool_decide_true P) by done
              | rewrite (bool_decide_false P) by done
              | rewrite (bool_decide_false P) by (intros [? ?]; done) ]
    end.

Ltac crunch :=
  unfold handleSubscribeRequest, GetDeviceData, then_, set_statusCode,
    setHeader, res_end;
  cbn [method pathname q_ping q_device q_code];
  bd; msimpl; last_simpl.

Ltac finish_router :=
  split_and!;
  first [ done
        | by eauto
        | by (unfold reply_of; cbn; rewrite lookup_last)
        | by intros ].

Lemma truthy_Some s : s ≠ EmptyString → truthy (Some s) = true.
Proof. intros H. unfold truthy. by rewrite bool_decide_false. Qed.

(** ** C9: every dispatched request leaves the [try] block by a [ReferenceError] *)

(** C9 as stated fails on three inputs.  An OPTIONS request has been
    answered 200 on line 66 before the [catch] block runs, so the requester
    is not answered 500.  A GET on [/subscribe] leaves the [try] block at
    line 123, by the [ReferenceError] of [parseFunctionResponse], so
    [urlParsed] on line 84 is never evaluated.  And a request that supplies
    an empty [device] parameter is answered 400 on lines 69-73. *)
Lemma options_answered_200_and_get_stops_at_line_123 :
  let key := Some "test-subscription-key" in
  let options := mkRequest "OPTIONS" "/subscribe" None (Some "dev-1") key in
  let get := mkRequest "GET" "/subscribe" None (Some "dev-1") key in
  let nameless := mkRequest "POST" "/subscribe" None (Some EmptyString) key in
  let w0 := set_responses (λ rs, rs ++ [fresh_response]) initial_world in
  reply_of 0 (react default_config (EvRequest options) initial_world)
  = Some (mkReply 200 [("Access-Control-Allow-Origin", "*")] EmptyString) ∧
  outcome (handleRequest_try default_config get 0) w0
  = Thrown (ReferenceError "parseFunctionResponse") ∧
  outcome (handleRequest_try default_config get 0) w0
  ≠ Thrown (ReferenceError "urlParsed") ∧
  outcome (handleRequest_try default_config nameless 0) w0 = Normal tt ∧
  reply_of 0 (react default_config (EvRequest nameless) initial_world)
  = Some (mkReply 400 [] (error_body "Missing 'device' query parameter")).
Proof. by split_and!. Qed.

(** C9, amended.  Take a request with a non-empty [device] parameter and no
    truthy [ping] parameter that the subscription-key check does not reject,
    on a new connection [c].  The [try] block of [handleRequest] is left by
    a [ReferenceError]: of [parseFunctionResponse] (line 123) for a GET on
    [/subscribe], of [urlParsed] (line 84) otherwise.  The [catch] block
    sets the status code to 500 and calls [res.end()], and nothing is left
    uncaught.  The reply the requester gets is a 500 without headers or
    body, unless the method is OPTIONS, whose reply was already sent on line
    66 with status 200.  A POST on [/subscribe] has by then installed its
    body listener, so its response is finished before any upstream payload
    arrives. *)
Theorem dispatched_request_ends_in_500 (cfg : Config) (rq : Request) (deviceId : string) (w : World) :
  truthy (q_ping rq) = false →
  q_device rq = Some deviceId →
  deviceId ≠ EmptyString →
  ¬ (pathname rq = "/subscribe" ∧ q_code rq ≠ Some (subscriptionKey cfg)) →
  let c := length (responses w) in
  let w0 := set_responses (λ rs, rs ++ [fresh_response]) w in
  let w' := react cfg (EvRequest rq) w in
  outcome (handleRequest_try cfg rq c) w0 =
    Thrown (ReferenceError
      (if bool_decide (pathname rq = "/subscribe" ∧ method rq = "GET")
       then "parseFunctionResponse" else "urlParsed")) ∧
  (∃ r, responses w' !! c = Some r ∧ statusCode r = 500) ∧
  (∃ calls, endCalls w' = calls ++ [(c, None)]) ∧
  reply_of c w' =
    Some (if bool_decide (method rq = "OPTIONS")
          then mkReply 200 [("Access-Control-Allow-Origin", "*")] EmptyString
          else mkReply 500 [] EmptyString) ∧
  (pathname rq = "/subscribe" → method rq = "POST" →
     bodyListeners w' = bodyListeners w ++ [(c, deviceId)]) ∧
  uncaught w' = uncaught w.
Proof.
  destruct rq as [m p ping dev code]. cbn [method pathname q_ping q_device q_code].
  intros Hping -> Hne Hkey. cbv zeta.
  unfold react, dispatch, handleRequest, handleRequest_try, outcome.
  cbn [method pathname q_ping q_device q_code].
  rewrite Hping. unfold or_null. rewrite (truthy_Some _ Hne).
  destruct (decide (p = "/subscribe")) as [->|Hp].
  - assert (Hc : code = Some (subscriptionKey cfg)).
    { destruct (decide (code = Some (subscriptionKey cfg))); [done|]. naive_solver. }
    subst code.
    destruct (decide (m = "OPTIONS")) as [->|Ho];
      [|destruct (decide (m = "POST")) as [->|Hpo];
        [|destruct (decide (m = "GET")) as [->|Hg]]].
    + destruct w. crunch. finish_router.
    + destruct w. crunch. finish_router.
    + destruct w. crunch. finish_router.
    + destruct w. crunch. finish_router.
  - destruct (decide (m = "OPTIONS")) as [->|Ho].
    + destruct w. crunch. finish_router.
    + destruct w. crunch. finish_router.
Qed.

Lemma dispatched_request_ends_in_500_witness :
  let rq := mkRequest "POST" "/subscribe" None (Some "dev-1")
              (Some "test-subscription-key") in
  let w' := react default_config (EvRequest rq) initial_world in
  truthy (q_ping rq) = false ∧
  q_device rq = Some "dev-1" ∧
  "dev-1" ≠ EmptyString ∧
  ¬ (pathname rq = "/subscribe"
     ∧ q_code rq ≠ Some (subscriptionKey default_config)) ∧
  reply_of 0 w' = Some (mkReply 500 [] EmptyString) ∧
  bodyListeners w' = [(0, "dev-1")].
Proof.
  intros rq w'.
  assert (H1 : "dev-1" ≠ EmptyString) by done.
  assert (H2 : ¬ (pathname rq = "/subscribe"
                  ∧ q_code rq ≠ Some (subscriptionKey default_config))).
  { intros [_ H]. by apply H. }
  destruct (dispatched_request_ends_in_500 default_config rq "dev-1"
              initial_world eq_refl eq_refl H1 H2)
    as (_ & _ & _ & Hreply & Hbody & _).
  split_and!; [reflexivity | reflexivity | exact H1 | exact H2 | exact Hreply |].
  exact (Hbody eq_refl eq_refl).
Defined.

(** ** C3: the publish signal *)

(** C3.  [handlePublishRequest] reads [deviceId], which it neither declares
    nor receives, so it always throws before it counts the subscribers,
    calls upstream or answers.  For [POST /publish?device=dev-1] with the
    publish key, [handleRequest] answers 500 and issues no upstream call,
    with nobody listening and also with one connection held for [dev-1],
    which stays unresolved. *)
Theorem publish_signal_is_never_served :
  let pub := mkRequest "POST" "/publish" None (Some "dev-1")
               (Some "test-publish-key") in
  let idle := react default_config (EvRequest pub) initial_world in
  let w1 := exec (saveSubscriber default_config 0 "dev-1")
              (set_responses (λ _, [fresh_response]) initial_world) in
  let busy := react default_config (EvRequest pub) w1 in
  (∀ rq c w, handlePublishRequest rq c w = (Thrown (ReferenceError "deviceId"), w)) ∧
  count "dev-1" initial_world = 0 ∧
  reply_of 0 idle = Some (mkReply 500 [] EmptyString) ∧
  pendingFetches idle = [] ∧
  count "dev-1" w1 = 1 ∧
  reply_of 1 busy = Some (mkReply 500 [] EmptyString) ∧
  pendingFetches busy = [] ∧
  reply_of 0 busy = None ∧
  held "dev-1" busy = [0].
Proof. by split_and!. Qed.

(** ** C4: subscribe by GET *)

(** A promise that nothing was chained on: its result is dropped. *)
Lemma dropped_promise_has_no_effect cfg w p call data :
  pendingFetches w !! p = Some (call, NoReaction) →
  react cfg (EvFetchResolve p data) w = set_pendingFetches (delete p) w.
Proof. intros Hp. cbn. by rewrite Hp. Qed.

(** C4.  For [GET /subscribe?device=dev-1] with the subscription key the
    upstream call is issued and its promise dropped: line 123 chains the
    undeclared [parseFunctionResponse], and the requester is answered 500.
    When the payload arrives, real (["17.2"]) or empty (["{}"]), nothing
    happens: no [end] call and no subscriber.  The POST path of lines
    113-115, which chains [parseDatabaseResponse], registers the connection
    on the same empty payload and calls [end] with the real one. *)
Theorem subscribe_get_drops_the_payload :
  let key := Some "test-subscription-key" in
  let get := mkRequest "GET" "/subscribe" None (Some "dev-1") key in
  let post := mkRequest "POST" "/subscribe" None (Some "dev-1") key in
  let w1 := react default_config (EvRequest get) initial_world in
  let real := react default_config (EvFetchResolve 0 "17.2") w1 in
  let empty := react default_config (EvFetchResolve 0 "{}") w1 in
  let p1 := run default_config [EvRequest post; EvBodyEnd 0 EmptyString] initial_world in
  pendingFetches w1 = [(PLC_GetData "dev-1", NoReaction)] ∧
  reply_of 0 w1 = Some (mkReply 500 [] EmptyString) ∧
  reply_of 0 real = Some (mkReply 500 [] EmptyString) ∧
  endCalls real = endCalls w1 ∧
  held "dev-1" empty = [] ∧
  closeListeners empty = [] ∧
  timeoutListeners empty = [] ∧
  pendingFetches p1 = [(PLC_GetData "dev-1", ThenParse 0 "dev-1")] ∧
  held "dev-1" (react default_config (EvFetchResolve 0 "{}") p1) = [0] ∧
  endCalls (react default_config (EvFetchResolve 0 "17.2") p1)
  = endCalls p1 ++ [(0, Some "17.2")].
Proof. by split_and!. Qed.

(** ** C8: exceptions outside the [try] block *)

Lemma handleRequest_never_throws cfg rq c w :
  outcome (handleRequest cfg rq c) w = Normal tt.
Proof.
  unfold outcome, handleRequest, try_catch.
  by destruct (handleRequest_try cfg rq c w) as [[[]|e] w'].
Qed.

(** The reaction that the subscribe path chains has no rejection handler. *)
Lemma rejection_on_subscribe_path_uncaught cfg w p call c id :
  pendingFetches w !! p = Some (call, ThenParse c id) →
  react cfg (EvFetchReject p) w =
  set_uncaught (λ l, l ++ [FetchError]) (set_pendingFetches (delete p) w).
Proof. intros Hp. cbn. by rewrite Hp. Qed.

(** C8.  [handleRequest] itself never throws: what its [try] block throws is
    caught.  But the reactions chained on the upstream promise run after
    [handleRequest] has returned, and the subscribe path chains no rejection
    handler: for [POST /subscribe?device=dev-1] with an empty body whose
    upstream call is rejected, the rejection is left uncaught and no [end]
    call answers it (the one [end] call is that of the [catch] block, made
    before the body was read).  The publish path, which chains [.catch],
    leaves nothing uncaught. *)
Theorem rejected_fetch_is_not_caught :
  let post := mkRequest "POST" "/subscribe" None (Some "dev-1")
                (Some "test-subscription-key") in
  let w2 := run default_config [EvRequest post; EvBodyEnd 0 EmptyString] initial_world in
  let w3 := react default_config (EvFetchReject 0) w2 in
  (∀ cfg rq c w, outcome (handleRequest cfg rq c) w = Normal tt) ∧
  pendingFetches w2 = [(PLC_GetData "dev-1", ThenParse 0 "dev-1")] ∧
  endCalls w2 = [(0, None)] ∧
  uncaught w2 = [] ∧
  uncaught w3 = [FetchError] ∧
  endCalls w3 = endCalls w2 ∧
  (∀ id w, on_rejected (ThenPublish id) w = (Normal tt, w)).
Proof. split_and!; try done. apply handleRequest_never_throws. Qed.

(** ** Executions keep the registry consistent *)

#[local] Instance same_registry_preorder : PreOrder same_registry.
Proof.
  split.
  - by intros w.
  - intros w1 w2 w3 (?&?&?&?) (?&?&?&?). split_and!; congruence.
Qed.

Lemma same_registry_set_statusCode c n : respects same_registry (set_statusCode c n).
Proof. intros w. split_and!; try done. cbn. apply length_alter. Qed.

Lemma same_registry_res_end c d : respects same_registry (res_end c d).
Proof. intros w. split_and!; try done. cbn. apply length_alter. Qed.

Lemma same_registry_setHeader c name value :
  respects same_registry (setHeader c name value).
Proof.
  intros w. unfold setHeader. unfold_M. cbn.
  destruct (responses w !! c) as [r|]; [|done].
  destruct (sent r); [done|]. split_and!; try done. cbn. apply length_insert.
Qed.

#[local] Hint Resolve same_registry_set_statusCode same_registry_res_end
  same_registry_setHeader : respect.

Lemma same_registry_onTimeout c id : respects same_registry (onTimeout c id).
Proof. unfold onTimeout. respect. Qed.

Lemma same_registry_gracefullyShutdown : respects same_registry gracefullyShutdown.
Proof.
  intros w. unfold exec. rewrite gracefullyShutdown_exec.
  split_and!; try done. cbn. unfold end_all.
  generalize (responses w). induction (all_held w) as [|x l IH]; intros rs; [done|].
  cbn. by rewrite IH, length_alter.
Qed.

Lemma same_registry_on_rejected r : respects same_registry (on_rejected r).
Proof. unfold on_rejected. respect. Qed.

Lemma consistent_same_registry w w' :
  same_registry w w' → consistent w → consistent w'.
Proof.
  intros (Hs & Hb & Hp & Hl) [H1 H2 H3 H4 H5].
  split; unfold in_flight, held in *; rewrite ?Hs, ?Hb, ?Hp, ?Hl; done.
Qed.

Lemma exec_bind {A B} (m : M A) (k : A → M B) w :
  exec (m ≫= k) w =
  match m w with
  | (Normal a, w') => exec (k a) w'
  | (Thrown _, w') => w'
  end.
Proof. unfold exec, mbind, M_bind, bind. by destruct (m w) as [[a|e] w']. Qed.

Lemma admits_same_registry c w w' : same_registry w w' → admits c w w'.
Proof.
  intros (Hs & Hb & Hp & Hl). exists []. rewrite app_nil_r, Hp. eauto 10.
Qed.

Lemma admits_frame_l c w w1 w2 :
  same_registry w w1 → admits c w1 w2 → admits c w w2.
Proof.
  intros (Hs & Hb & Hp & Hl) (ls & ? & ? & ? & ? & ?). exists ls.
  split_and!; [done | congruence..].
Qed.

Lemma admits_frame_r c w w1 w2 :
  admits c w w1 → same_registry w1 w2 → admits c w w2.
Proof.
  intros (ls & ? & ? & ? & ? & ?) (Hs & Hb & Hp & Hl). exists ls.
  split_and!; [done | congruence..].
Qed.

Lemma handleSubscribeRequest_admits rq c id w :
  admits c w (exec (handleSubscribeRequest rq c id) w).
Proof.
  unfold exec.
  destruct (decide (method rq = "POST")) as [Hp|Hp];
    [|destruct (decide (method rq = "GET")) as [Hg|Hg]].
  - rewrite handleSubscribeRequest_POST by done. exists [(c, id)].
    split_and!; eauto.
  - rewrite handleSubscribeRequest_GET by done. exists [].
    split_and!; eauto; cbn.
    + by rewrite app_nil_r.
    + unfold parse_conns. rewrite omap_app. cbn. by rewrite app_nil_r.
  - rewrite handleSubscribeRequest_other by done. by apply admits_same_registry.
Qed.

Lemma handleRequest_try_admits cfg rq c w :
  admits c w (exec (handleRequest_try cfg rq c) w).
Proof.
  unfold handleRequest_try. destruct (truthy (q_ping rq)).
  { apply admits_same_registry. revert w. change (respects same_registry (res_end c (Some ping_body))). respect. }
  rewrite exec_bind.
  match goal with |- context [?B w] =>
    assert (HB : respects same_registry B) by respect;
    specialize (HB w); unfold exec in HB; destruct (B w) as [[[]|e] w1] end;
    cbn in HB; [|by apply admits_same_registry].
  apply (admits_frame_l _ _ _ _ HB).
  destruct (or_null (q_device rq)) as [d|].
  - destruct (_ && _).
    + apply admits_same_registry.
      match goal with |- same_registry _ (exec ?m _) =>
        assert (Hm : respects same_registry m) by respect; apply Hm end.
    + rewrite exec_bind.
      match goal with |- context [?S w1] =>
        assert (HS : admits c w1 (exec S w1))
          by (destruct (bool_decide _);
              [apply handleSubscribeRequest_admits | by apply admits_same_registry]);
        unfold exec in HS; by destruct (S w1) as [[[]|e'] w2] end.
  - apply admits_same_registry.
    match goal with |- same_registry _ (exec ?m _) =>
      assert (Hm : respects same_registry m) by respect; apply Hm end.
Qed.

Lemma handleRequest_admits cfg rq c w :
  admits c w (exec (handleRequest cfg rq c) w).
Proof.
  pose proof (handleRequest_try_admits cfg rq c w) as HT.
  unfold handleRequest, try_catch, exec in *.
  destruct (handleRequest_try cfg rq c w) as [[[]|e] w1]; cbn in *; [done|].
  eapply admits_frame_r; [done|].
  match goal with |- same_registry _ (?m _).2 =>
    assert (Hm : respects same_registry m) by respect; apply Hm end.
Qed.

#[local] Instance shrinks_preorder : PreOrder shrinks.
Proof.
  split.
  - by intros w.
  - intros w1 w2 w3 (Ha&?&?&?) (Hb&?&?&?). split_and!; [|congruence..].
    intros id. etrans; [apply Hb | apply Ha].
Qed.

Lemma shrinks_same_registry w w' : same_registry w w' → shrinks w w'.
Proof.
  intros (Hs & ? & ? & ?). split_and!; try done. intros id. unfold held.
  by rewrite Hs.
Qed.

Lemma consistent_shrinks w w' : shrinks w w' → consistent w → consistent w'.
Proof.
  intros (Hs & Hb & Hp & Hl) [H1 H2 H3 H4 H5].
  split; unfold in_flight in *; rewrite ?Hb, ?Hp, ?Hl.
  - intros id. eapply sublist_NoDup; [apply H1 | apply Hs].
  - done.
  - intros c id Hc Hh. eapply H3; [done|]. eapply elem_of_sublist; [done | apply Hs].
  - done.
  - intros c id Hh. eapply H5, elem_of_sublist; [done | apply Hs].
Qed.

Lemma consistent_drop w w' k :
  subscribers w' = subscribers w →
  length (responses w') = length (responses w) →
  in_flight w ≡ₚ k ++ in_flight w' →
  consistent w → consistent w'.
Proof.
  intros Hs Hl Hp [H1 H2 H3 H4 H5].
  assert (Hin : ∀ c, c ∈ in_flight w' → c ∈ in_flight w).
  { intros c Hc. rewrite Hp. apply elem_of_app. by right. }
  split; unfold held in *; rewrite ?Hs, ?Hl; eauto.
  rewrite Hp in H2. by apply NoDup_app in H2 as (_ & _ & ?).
Qed.

Lemma length_end_all l d rs : length (end_all l d rs) = length rs.
Proof.
  revert rs. induction l as [|x l IH]; intros rs; [done|].
  cbn. fold (end_all l d (alter (finish d) x rs)). by rewrite IH, length_alter.
Qed.

Lemma shrinks_sendDataToSubscribers id data :
  respects shrinks (sendDataToSubscribers id data).
Proof.
  intros w. unfold exec.
  assert (Hi : property (subscribers w) id = Inherited ∨
               property (subscribers w) id ≠ Inherited)
    by (destruct (property (subscribers w) id); eauto).
  destruct Hi as [Hp|Hp].
  { by rewrite sendDataToSubscribers_inherited. }
  rewrite sendDataToSubscribers_exec by done.
  split_and!; try done; cbn.
  - intros id'. unfold held. cbn. destruct (decide (id = id')) as [<-|Hne].
    + rewrite lookup_insert_eq. apply sublist_nil_l.
    + by rewrite lookup_insert_ne.
  - apply length_end_all.
Qed.

Lemma shrinks_res_end c d : respects shrinks (res_end c d).
Proof. intros w. apply shrinks_same_registry, same_registry_res_end. Qed.

Lemma shrinks_onClose c id : respects shrinks (onClose c id).
Proof.
  intros w. unfold exec.
  destruct (subscribers w !! id) as [l|] eqn:E.
  2:{ by destruct (onClose_throws c id w E) as [e ->]. }
  rewrite (onClose_exec _ _ _ _ E). split_and!; try done.
  intros id'. unfold held. cbn. destruct (decide (id = id')) as [<-|Hne].
  - rewrite lookup_insert_eq, E. apply sublist_filter.
  - by rewrite lookup_insert_ne.
Qed.

#[local] Hint Resolve shrinks_sendDataToSubscribers shrinks_res_end
  shrinks_onClose : respect.

Lemma shrinks_set_uncaught w f : shrinks w (set_uncaught f w).
Proof. by apply shrinks_same_registry. Qed.

(** A new connection and at most one body listener for it. *)
Lemma consistent_admits w w' r :
  admits (length (responses w)) (set_responses (λ rs, rs ++ [r]) w) w' →
  consistent w → consistent w'.
Proof.
  intros (ls & Hls & Hs & Hb & Hp & Hl) [H1 H2 H3 H4 H5]. cbn in *.
  rewrite length_app in Hl. cbn in Hl.
  assert (Hf : in_flight w' = in_flight w ++ ls.*1).
  { unfold in_flight. by rewrite Hb, Hp, fmap_app, app_assoc. }
  assert (Hnew : length (responses w) ∉ in_flight w).
  { intros ?%H4. lia. }
  split; unfold held in *; rewrite ?Hs, ?Hf, ?Hl.
  - done.
  - destruct Hls as [->|[id ->]]; cbn; [by rewrite app_nil_r|].
    apply NoDup_app. split_and!; [done | | apply NoDup_singleton].
    intros x Hx ->%list_elem_of_singleton. done.
  - intros c id [Hc|Hc]%elem_of_app; [by apply H3|].
    destruct Hls as [->|[id' ->]]; cbn in Hc; [by apply elem_of_nil in Hc|].
    apply list_elem_of_singleton in Hc as ->. intros ?%H5. lia.
  - intros c [Hc|Hc]%elem_of_app; [apply H4 in Hc; lia|].
    destruct Hls as [->|[id' ->]]; cbn in Hc; [by apply elem_of_nil in Hc|].
    apply list_elem_of_singleton in Hc as ->. lia.
  - intros c id ?%H5. lia.
Qed.

Lemma onBodyEnd_exec c id message w :
  onBodyEnd c id message w =
  (Normal tt,
   set_pendingFetches (λ pf, pf ++ [(call_for message (c, id), ThenParse c id)]) w).
Proof.
  unfold onBodyEnd, call_for, GetDeviceData, GetSetDeviceData, then_.
  destruct w. destruct (String.length message <=? 2); msimpl; by rewrite alter_last.
Qed.

Lemma forEach_onBodyEnd (ls : list (nat * string)) message w :
  forEach ls (λ l, onBodyEnd l.1 l.2 message) w =
  (Normal tt,
   set_pendingFetches
     (λ pf, pf ++ ((λ l, (call_for message l, ThenParse l.1 l.2)) <$> ls)) w).
Proof.
  revert w. induction ls as [|[c id] ls IH]; intros w.
  - destruct w; msimpl. by rewrite app_nil_r.
  - cbn [forEach]. unfold mbind, M_bind, bind. rewrite onBodyEnd_exec, IH.
    destruct w; unfold_set; cbn. by rewrite <- app_assoc.
Qed.

Lemma parse_conns_app fs1 fs2 :
  parse_conns (fs1 ++ fs2) = parse_conns fs1 ++ parse_conns fs2.
Proof. apply omap_app. Qed.

Lemma parse_conns_listeners message (ls : list (nat * string)) :
  parse_conns ((λ l, (call_for message l, ThenParse l.1 l.2)) <$> ls) = ls.*1.
Proof. induction ls as [|l ls IH]; [done|]. cbn. by f_equal. Qed.

(** The connection that a pending upstream call stands for, if any. *)
Lemma parse_conns_delete fs p f :
  fs !! p = Some f →
  parse_conns fs ≡ₚ parse_conns [f] ++ parse_conns (delete p fs).
Proof.
  intros Hp. rewrite <- (take_drop_middle _ _ _ Hp) at 1.
  change (f :: drop (S p) fs) with ([f] ++ drop (S p) fs).
  rewrite delete_take_drop, !parse_conns_app.
  apply Permutation_app_swap_app.
Qed.

Lemma consistent_dispatch (m : M unit) w :
  consistent (exec m w) → consistent (dispatch m w).
Proof.
  unfold dispatch, exec. destruct (m w) as [[[]|e] w']; cbn; [done|].
  by apply consistent_same_registry.
Qed.

(** Registering a connection that was in flight. *)
Lemma consistent_register cfg c id w w_d :
  subscribers w_d = subscribers w →
  length (responses w_d) = length (responses w) →
  in_flight w ≡ₚ c :: in_flight w_d →
  consistent w → consistent (exec (saveSubscriber cfg c id) w_d).
Proof.
  intros Hs Hl Hp Hw.
  assert (Hi : property (subscribers w_d) id = Inherited ∨
               property (subscribers w_d) id ≠ Inherited)
    by (destruct (property (subscribers w_d) id); eauto).
  destruct Hi as [Hi|Hi].
  { unfold exec. rewrite saveSubscriber_inherited by done. cbn.
    apply (consistent_drop w w_d [c]); done. }
  assert (Hx : ∃ f, exec (saveSubscriber cfg c id) w_d
                    = set_timeoutListeners f (registered c id w_d)).
  { rewrite saveSubscriber_exec.
    destruct (property (subscribers w_d) id); [|done|];
      (destruct (armed _ _ _); [by eexists | by exists (λ ls, ls); destruct w_d]). }
  destruct Hx as [f Hx]. rewrite Hx. clear Hx.
  destruct Hw as [H1 H2 H3 H4 H5].
  assert (Hc : c ∈ in_flight w) by (rewrite Hp; apply elem_of_cons; by left).
  assert (Hin : ∀ x, x ∈ in_flight w_d → x ∈ in_flight w).
  { intros x Hx. rewrite Hp. apply elem_of_cons. by right. }
  rewrite Hp in H2. apply NoDup_cons in H2 as [Hnc H2].
  assert (Hh : ∀ id', held id' w_d = held id' w).
  { intros id'. unfold held. by rewrite Hs. }
  assert (Hh' : ∀ id', held id' (set_timeoutListeners f (registered c id w_d)) =
                       if decide (id = id') then held id w ++ [c] else held id' w).
  { intros id'. change (held id' (set_timeoutListeners f (registered c id w_d)))
      with (held id' (registered c id w_d)).
    by rewrite held_registered, !Hh. }
  split.
  - intros id'. rewrite Hh'. case_decide; [|done].
    apply NoDup_app. split_and!; [done | | apply NoDup_singleton].
    intros x Hx ->%list_elem_of_singleton. by eapply H3.
  - done.
  - intros x id'.
    change (in_flight _) with (in_flight w_d). intros Hx. rewrite Hh'.
    case_decide; [|by apply H3, Hin].
    intros [?| ->%list_elem_of_singleton]%elem_of_app; [|done].
    by eapply H3; [apply Hin|].
  - intros x.
    change (in_flight _) with (in_flight w_d). cbn. rewrite Hl. eauto.
  - intros x id'. rewrite Hh'. cbn.
    rewrite Hl. case_decide; [|by apply H5].
    intros [?| ->%list_elem_of_singleton]%elem_of_app; eauto.
Qed.

Lemma consistent_react cfg ev w : consistent w → consistent (react cfg ev w).
Proof.
  intros Hw. destruct ev; cbn [react].
  - apply consistent_dispatch. eapply consistent_admits; [|done].
    apply handleRequest_admits.
  - apply consistent_dispatch. unfold exec. rewrite forEach_onBodyEnd.
    eapply (consistent_drop w _ []); [done | done | | done].
    unfold in_flight. cbn. rewrite parse_conns_app, parse_conns_listeners.
    rewrite <- (assoc (++)), <- fmap_app. do 2 f_equiv.
    symmetry. apply (filter_app_complement (λ l, l.1 = c)).
  - destruct (pendingFetches w !! p) as [[call r]|] eqn:Hp; [|done].
    pose proof (parse_conns_delete _ _ _ Hp) as Hperm.
    assert (Hf : in_flight w ≡ₚ
              parse_conns [(call, r)] ++ in_flight (set_pendingFetches (delete p) w)).
    { unfold in_flight. cbn [pendingFetches bodyListeners set_pendingFetches].
      by rewrite Hperm, (assoc (++)). }
    pose proof (consistent_drop w (set_pendingFetches (delete p) w) _
                  eq_refl eq_refl Hf Hw) as Hd.
    apply consistent_dispatch. destruct r as [|c' id|id]; cbn [on_fulfilled snd].
    + done.
    + unfold parseDatabaseResponse. destruct (String.length data <=? 2).
      * by apply (consistent_register cfg c' id w).
      * eapply consistent_shrinks; [|done].
        match goal with |- shrinks _ (exec ?m _) =>
          assert (Hm : respects shrinks m) by respect; apply Hm end.
    + eapply consistent_shrinks; [|done].
      match goal with |- shrinks _ (exec ?m _) =>
        assert (Hm : respects shrinks m) by respect; apply Hm end.
  - destruct (pendingFetches w !! p) as [[call r]|] eqn:Hp; [|done].
    pose proof (parse_conns_delete _ _ _ Hp) as Hperm.
    apply consistent_dispatch.
    eapply consistent_same_registry; [apply same_registry_on_rejected|].
    eapply (consistent_drop w _ (parse_conns [(call, r)])); [done | done | | done].
    unfold in_flight. cbn [pendingFetches bodyListeners set_pendingFetches].
    by rewrite Hperm, (assoc (++)).
  - apply consistent_dispatch. eapply consistent_shrinks; [|done].
    etrans; [apply shrinks_same_registry|].
    2:{ match goal with |- shrinks _ (exec ?m _) =>
          assert (Hm : respects shrinks m) by respect; apply Hm end. }
    done.
  - destruct (socket_destroyed c w); [done|].
    apply consistent_dispatch. eapply consistent_same_registry; [|done].
    etrans.
    2:{ match goal with |- same_registry _ (exec ?m _) =>
          assert (Hm : respects same_registry m)
            by (apply respects_forEach; [apply _|]; intros ?;
                apply same_registry_onTimeout);
          apply Hm end. }
    split_and!; try done. cbn. apply length_alter.
  - eapply consistent_same_registry; [|done].
    split_and!; try done. cbn. apply length_alter.
  - apply consistent_dispatch. eapply consistent_same_registry; [|done].
    apply same_registry_gracefullyShutdown.
Qed.

Lemma consistent_initial : consistent initial_world.
Proof.
  split; try done.
  - intros id. apply NoDup_nil_2.
  - apply NoDup_nil_2.
  - intros c id Hc. by apply elem_of_nil in Hc.
  - intros c Hc. by apply elem_of_nil in Hc.
  - intros c id Hc. by apply elem_of_nil in Hc.
Qed.

Lemma consistent_run cfg evs w : consistent w → consistent (run cfg evs w).
Proof.
  revert w. induction evs as [|ev evs IH]; intros w Hw; cbn; [done|].
  by apply IH, consistent_react.
Qed.

(** Along every execution from the initial state, the connection that the
    reaction of a pending upstream call would register is not held yet, and
    no array of the registry holds a connection twice: whenever the event
    loop runs [saveSubscriber c id], [c] is new to [subscribers[id]]. *)
Lemma registration_is_fresh cfg evs p call c id :
  let w := run cfg evs initial_world in
  pendingFetches w !! p = Some (call, ThenParse c id) →
  (c ∉ held id w) ∧ NoDup (held id w).
Proof.
  intros w Hp.
  destruct (consistent_run cfg evs _ consistent_initial) as [H1 _ H3 _ _].
  split; [|apply H1]. apply H3. unfold in_flight. apply elem_of_app. left.
  apply list_elem_of_omap. exists (call, ThenParse c id).
  split; [by eapply list_elem_of_lookup_2|done].
Qed.

(** * Further properties *)

(** ** The router, request by request *)

Ltac in_list := repeat (apply elem_of_cons; first [by left | right]).

(** X1.  A request with a truthy [ping] parameter is answered 200 with
    [{"ping": "success"}] whatever its method, path, device and code; it
    touches neither the registry nor the listeners nor the upstream calls. *)
Theorem ping_short_circuits (cfg : Config) (rq : Request) (w : World) :
  truthy (q_ping rq) = true →
  let c := length (responses w) in
  let w' := react cfg (EvRequest rq) w in
  reply_of c w' = Some (mkReply 200 [] ping_body) ∧
  endCalls w' = endCalls w ++ [(c, Some ping_body)] ∧
  subscribers w' = subscribers w ∧
  bodyListeners w' = bodyListeners w ∧
  pendingFetches w' = pendingFetches w ∧
  uncaught w' = uncaught w.
Proof.
  destruct rq as [m p ping dev code]. cbn [q_ping]. intros Hping. cbv zeta.
  unfold react, dispatch, handleRequest, handleRequest_try.
  cbn [method pathname q_ping q_device q_code]. rewrite Hping.
  destruct w. crunch. finish_router.
Qed.

Lemma ping_short_circuits_witness :
  let rq := mkRequest "DELETE" "/nowhere" (Some "1") None None in
  let w' := react default_config (EvRequest rq) initial_world in
  truthy (q_ping rq) = true ∧
  reply_of 0 w' = Some (mkReply 200 [] ping_body).
Proof.
  intros rq w'. split; [reflexivity|].
  exact (proj1 (ping_short_circuits default_config rq initial_world eq_refl)).
Defined.

(** X2.  Without a truthy [ping], a request whose [device] parameter is
    absent or empty (and whose method is not OPTIONS) is answered 400 with
    the missing-device error, before the path and the code are looked at;
    nothing else changes. *)
Theorem missing_device_is_rejected (cfg : Config) (rq : Request) (w : World) :
  truthy (q_ping rq) = false →
  truthy (q_device rq) = false →
  method rq ≠ "OPTIONS" →
  let c := length (responses w) in
  let w' := react cfg (EvRequest rq) w in
  reply_of c w' = Some (mkReply 400 [] (error_body "Missing 'device' query parameter")) ∧
  endCalls w' = endCalls w ++ [(c, Some (error_body "Missing 'device' query parameter"))] ∧
  subscribers w' = subscribers w ∧
  bodyListeners w' = bodyListeners w ∧
  pendingFetches w' = pendingFetches w ∧
  uncaught w' = uncaught w.
Proof.
  destruct rq as [m p ping dev code]. cbn [q_ping q_device method].
  intros Hping Hdev Hm. cbv zeta.
  unfold react, dispatch, handleRequest, handleRequest_try.
  cbn [method pathname q_ping q_device q_code]. rewrite Hping.
  unfold or_null. rewrite Hdev.
  destruct w. crunch. finish_router.
Qed.

Lemma missing_device_is_rejected_witness :
  let rq := mkRequest "POST" "/subscribe" None (Some EmptyString)
              (Some "test-subscription-key") in
  let w' := react default_config (EvRequest rq) initial_world in
  truthy (q_ping rq) = false ∧
  truthy (q_device rq) = false ∧
  method rq ≠ "OPTIONS" ∧
  reply_of 0 w' = Some (mkReply 400 [] (error_body "Missing 'device' query parameter")) ∧
  bodyListeners w' = [].
Proof.
  intros rq w'.
  assert (Hm : method rq ≠ "OPTIONS") by done.
  destruct (missing_device_is_rejected default_config rq initial_world
              eq_refl eq_refl Hm) as (Hr & _ & _ & Hb & _).
  split_and!; [reflexivity | reflexivity | exact Hm | exact Hr | exact Hb].
Defined.

Lemma handleRequest_403 (cfg : Config) (rq : Request) (w : World) :
  truthy (q_ping rq) = false →
  truthy (q_device rq) = true →
  method rq ≠ "OPTIONS" →
  pathname rq = "/subscribe" →
  q_code rq ≠ Some (subscriptionKey cfg) →
  let c := length (responses w) in
  let w' := react cfg (EvRequest rq) w in
  reply_of c w' = Some (mkReply 403 [] (error_body "Invalid subscription key")) ∧
  endCalls w' = endCalls w ++ [(c, Some (error_body "Invalid subscription key"))] ∧
  subscribers w' = subscribers w ∧
  bodyListeners w' = bodyListeners w ∧
  pendingFetches w' = pendingFetches w ∧
  uncaught w' = uncaught w.
Proof.
  destruct rq as [m p ping dev code]. cbn [q_ping q_device method pathname q_code].
  intros Hping Hdev Hm -> Hcode. cbv zeta.
  unfold react, dispatch, handleRequest, handleRequest_try.
  cbn [method pathname q_ping q_device q_code]. rewrite Hping.
  unfold or_null. rewrite Hdev. destruct dev as [d|]; [|done].
  destruct w. crunch. finish_router.
Qed.

(** X3.  On [/subscribe], a request with a device whose [code] is not the
    subscription key (absent included) is answered 403 with the invalid-key
    error; no body listener is installed and no upstream call is issued. *)
Theorem wrong_subscription_key_is_rejected (cfg : Config) (rq : Request) (w : World) :
  truthy (q_ping rq) = false →
  truthy (q_device rq) = true →
  method rq ≠ "OPTIONS" →
  pathname rq = "/subscribe" →
  q_code rq ≠ Some (subscriptionKey cfg) →
  let c := length (responses w) in
  let w' := react cfg (EvRequest rq) w in
  reply_of c w' = Some (mkReply 403 [] (error_body "Invalid subscription key")) ∧
  endCalls w' = endCalls w ++ [(c, Some (error_body "Invalid subscription key"))] ∧
  subscribers w' = subscribers w ∧
  bodyListeners w' = bodyListeners w ∧
  pendingFetches w' = pendingFetches w ∧
  uncaught w' = uncaught w.
Proof. apply handleRequest_403. Qed.

Lemma wrong_subscription_key_is_rejected_witness :
  let rq := mkRequest "GET" "/subscribe" None (Some "dev-1") (Some "guess") in
  let w' := react default_config (EvRequest rq) initial_world in
  truthy (q_ping rq) = false ∧
  truthy (q_device rq) = true ∧
  method rq ≠ "OPTIONS" ∧
  pathname rq = "/subscribe" ∧
  q_code rq ≠ Some (subscriptionKey default_config) ∧
  reply_of 0 w' = Some (mkReply 403 [] (error_body "Invalid subscription key")) ∧
  pendingFetches w' = [].
Proof.
  intros rq w'.
  assert (Hm : method rq ≠ "OPTIONS") by done.
  assert (Hc : q_code rq ≠ Some (subscriptionKey default_config)) by done.
  destruct (wrong_subscription_key_is_rejected default_config rq initial_world
              eq_refl eq_refl Hm eq_refl Hc) as (Hr & _ & _ & _ & Hf & _).
  split_and!; [reflexivity | reflexivity | exact Hm | reflexivity | exact Hc
              | exact Hr | exact Hf].
Defined.

(** X4.  Without a truthy [ping], an OPTIONS request is answered 200 with
    the header [Access-Control-Allow-Origin: *] and no body, whatever its
    path, device and code: the reply is sent on line 66, and what the rest
    of [handleRequest] does afterwards cannot change it.  The registry, the
    body listeners and the upstream calls stay as they are. *)
Theorem options_is_answered_200 (cfg : Config) (rq : Request) (w : World) :
  truthy (q_ping rq) = false →
  method rq = "OPTIONS" →
  let c := length (responses w) in
  let w' := react cfg (EvRequest rq) w in
  reply_of c w' =
    Some (mkReply 200 [("Access-Control-Allow-Origin", "*")] EmptyString) ∧
  subscribers w' = subscribers w ∧
  bodyListeners w' = bodyListeners w ∧
  pendingFetches w' = pendingFetches w ∧
  uncaught w' = uncaught w.
Proof.
  destruct rq as [m p ping dev code]. cbn [q_ping method].
  intros Hping ->. cbv zeta.
  unfold react, dispatch, handleRequest, handleRequest_try.
  cbn [method pathname q_ping q_device q_code]. rewrite Hping.
  destruct (or_null dev) as [d|];
    [destruct (decide (p = "/subscribe")) as [->|Hp];
      [destruct (decide (code = Some (subscriptionKey cfg))) as [->|Hc]|]|];
    destruct w; crunch; finish_router.
Qed.

Lemma options_is_answered_200_witness :
  let rq := mkRequest "OPTIONS" "/publish" None None None in
  let w' := react default_config (EvRequest rq) initial_world in
  truthy (q_ping rq) = false ∧
  method rq = "OPTIONS" ∧
  reply_of 0 w' =
    Some (mkReply 200 [("Access-Control-Allow-Origin", "*")] EmptyString).
Proof.
  intros rq w'. split_and!; [reflexivity | reflexivity |].
  exact (proj1 (options_is_answered_200 default_config rq initial_world
                  eq_refl eq_refl)).
Defined.

Ltac split_method m :=
  destruct (decide (m = "OPTIONS")) as [->|?];
    [|destruct (decide (m = "POST")) as [->|?];
      [|destruct (decide (m = "GET")) as [->|?]]].

Lemma handleRequest_answers cfg rq w :
  let c := length (responses w) in
  let w' := react cfg (EvRequest rq) w in
  (∃ x, reply_of c w' = Some x ∧ received c w' = Some x ∧ x ∈ router_replies) ∧
  length (responses w') = S c ∧
  (∀ c0, c0 < c → responses w' !! c0 = responses w !! c0) ∧
  subscribers w' = subscribers w ∧
  closeListeners w' = closeListeners w ∧
  timeoutListeners w' = timeoutListeners w ∧
  uncaught w' = uncaught w.
Proof.
  destruct rq as [m p ping dev code]. cbv zeta.
  unfold react, dispatch, handleRequest, handleRequest_try.
  cbn [method pathname q_ping q_device q_code].
  assert (Hlen : ∀ (rs : list ServerResponse) r, length (rs ++ [r]) = S (length rs)).
  { intros. rewrite length_app. cbn. lia. }
  assert (Hold : ∀ (rs : list ServerResponse) r c0,
            c0 < length rs → (rs ++ [r]) !! c0 = rs !! c0).
  { intros. by apply lookup_app_l. }
  destruct (truthy ping);
    [|destruct (or_null dev) as [d|];
      [destruct (decide (p = "/subscribe")) as [->|Hp];
       [destruct (decide (code = Some (subscriptionKey cfg))) as [->|Hc]|]|]];
    split_method m;
    destruct w; crunch;
    (split_and!; [eexists; split_and!;
                   [ unfold reply_of; cbn; by rewrite lookup_last
                   | unfold received; cbn; by rewrite lookup_last
                   | in_list ]
                 | by eauto..]).
Qed.

(** X5.  Every request is answered before [handleRequest] returns, with one
    of five replies: the ping acknowledgement, the 200 of OPTIONS, the 400
    of a missing device, the 403 of a wrong subscription key, or a bare 500.
    So no request leaves its connection open, and neither the 204 of
    [handlePublishRequest] nor the invalid-code 400 is ever sent.  The
    request changes no other response object, no entry of the registry, no
    close listener and no timeout callback, and leaves nothing uncaught. *)
Theorem every_request_is_answered_at_once (cfg : Config) (rq : Request) (w : World) :
  let c := length (responses w) in
  let w' := react cfg (EvRequest rq) w in
  (∃ x, reply_of c w' = Some x ∧ x ∈ router_replies) ∧
  length (responses w') = S c ∧
  (∀ c0, c0 < c → responses w' !! c0 = responses w !! c0) ∧
  subscribers w' = subscribers w ∧
  closeListeners w' = closeListeners w ∧
  timeoutListeners w' = timeoutListeners w ∧
  uncaught w' = uncaught w.
Proof.
  destruct (handleRequest_answers cfg rq w) as ((x & Hx & _ & Hin) & H).
  cbv zeta. split; [by exists x | exact H].
Qed.

(** ** Configuration and upstream URLs *)

Lemma append_inv_head (s a b : string) : s +:+ a = s +:+ b → a = b.
Proof. induction s as [|ch s IH]; simpl; [done|]. intros [= ?]. auto. Qed.

Lemma length_append (a b : string) :
  String.length (a +:+ b) = String.length a + String.length b.
Proof. induction a as [|ch a IH]; simpl; [done|]. by rewrite IH. Qed.

Lemma append_inv_tail (s a b : string) : a +:+ s = b +:+ s → a = b.
Proof.
  revert b. induction a as [|ch a IH]; intros [|ch' b] H; simpl in H.
  - done.
  - apply (f_equal String.length) in H. simpl in H.
    rewrite !length_append in H. simpl in H. lia.
  - apply (f_equal String.length) in H. simpl in H.
    rewrite !length_append in H. simpl in H. lia.
  - injection H as -> H. f_equal. by apply IH.
Qed.

(** X15.  Two upstream calls are fetched from the same URL exactly when
    they are of the same kind (read, or read-and-write) and for the same
    device identifier. *)
Theorem upstream_endpoints_are_distinct
    (env : gmap string string) (cfg : Config) (call1 call2 : FetchCall) :
  endpoint_of env cfg call1 = endpoint_of env cfg call2 ↔
  match call1, call2 with
  | PLC_GetData d1, PLC_GetData d2 => d1 = d2
  | PLC_GetSetData d1 _, PLC_GetSetData d2 _ => d1 = d2
  | _, _ => False
  end.
Proof.
  destruct call1 as [d1|d1 b1], call2 as [d2|d2 b2]; cbn;
    unfold getPLCGetDataEndpoint, getPLCGetSetDataEndpoint;
    (split; [intros H%append_inv_head | try done; by intros ->]).
  - apply (append_inv_head "/api/PLC_GetData/") in H.
    by apply append_inv_tail in H.
  - apply (append_inv_head "/api/PLC_Get") in H. by simpl in H.
  - apply (append_inv_head "/api/PLC_Get") in H. by simpl in H.
  - apply (append_inv_head "/api/PLC_GetSetData/") in H.
    by apply append_inv_tail in H.
Qed.

Lemma env_or_nonempty v fallback :
  fallback ≠ EmptyString → env_or v fallback ≠ EmptyString.
Proof.
  intros Hf. unfold env_or, truthy. destruct v as [s|]; [|done]. cbn.
  case_bool_decide; cbn; [done|]. done.
Qed.

Lemma env_or_set v s fallback :
  v = Some s → s ≠ EmptyString → env_or v fallback = s.
Proof. intros -> Hs. unfold env_or, truthy. by rewrite bool_decide_false. Qed.

Lemma env_or_unset v fallback : truthy v = false → env_or v fallback = fallback.
Proof. intros H. unfold env_or. by rewrite H. Qed.

(** X16.  Whatever the environment, the subscription key and the publish
    key in force are not empty: a variable that is unset or empty falls back
    to the test key, and one set to a non-empty value is used as it is.  So
    a request on [/subscribe] without [code], or with an empty one, is
    answered 403 and neither reads a body nor calls upstream. *)
Theorem keys_in_force_are_never_empty (env : gmap string string) (rq : Request) (w : World) :
  truthy (q_ping rq) = false →
  truthy (q_device rq) = true →
  method rq ≠ "OPTIONS" →
  pathname rq = "/subscribe" →
  truthy (q_code rq) = false →
  let cfg := load_config env in
  let c := length (responses w) in
  let w' := react cfg (EvRequest rq) w in
  subscriptionKey cfg ≠ EmptyString ∧
  publishKey cfg ≠ EmptyString ∧
  (∀ v, env !! "SUBSCRIPTION_KEY" = Some v → v ≠ EmptyString →
        subscriptionKey cfg = v) ∧
  (truthy (env !! "SUBSCRIPTION_KEY") = false →
        subscriptionKey cfg = "test-subscription-key") ∧
  reply_of c w' = Some (mkReply 403 [] (error_body "Invalid subscription key")) ∧
  bodyListeners w' = bodyListeners w ∧
  pendingFetches w' = pendingFetches w.
Proof.
  intros Hping Hdev Hm Hp Hcode. cbv zeta.
  assert (Hk : subscriptionKey (load_config env) ≠ EmptyString)
    by by apply env_or_nonempty.
  assert (Hc : q_code rq ≠ Some (subscriptionKey (load_config env))).
  { intros Hq. rewrite Hq in Hcode. unfold truthy in Hcode.
    by rewrite bool_decide_false in Hcode. }
  destruct (handleRequest_403 (load_config env) rq w Hping Hdev Hm Hp Hc)
    as (Hr & _ & _ & Hb & Hf & _).
  split_and!; [done | by apply env_or_nonempty | | | done | done | done].
  - intros v Hv Hne. by apply env_or_set.
  - by apply env_or_unset.
Qed.

Lemma keys_in_force_are_never_empty_witness :
  let env : gmap string string := {[ "SUBSCRIPTION_KEY" := EmptyString ]} in
  let rq := mkRequest "POST" "/subscribe" None (Some "dev-1") (Some EmptyString) in
  let w' := react (load_config env) (EvRequest rq) initial_world in
  truthy (q_ping rq) = false ∧
  truthy (q_device rq) = true ∧
  method rq ≠ "OPTIONS" ∧
  pathname rq = "/subscribe" ∧
  truthy (q_code rq) = false ∧
  subscriptionKey (load_config env) = "test-subscription-key" ∧
  reply_of 0 w' = Some (mkReply 403 [] (error_body "Invalid subscription key")).
Proof.
  intros env rq w'.
  assert (Hm : method rq ≠ "OPTIONS") by done.
  destruct (keys_in_force_are_never_empty env rq initial_world
              eq_refl eq_refl Hm eq_refl eq_refl) as (_ & _ & _ & Hd & Hr & _).
  split_and!; [reflexivity | reflexivity | exact Hm | reflexivity | reflexivity
              | exact (Hd eq_refl) | exact Hr].
Defined.

(** ** The registry functions, one against another *)

Lemma filter_ne_absent (c : conn) (l : list nat) :
  c ∉ l → filter (λ s, s ≠ c) l = l.
Proof.
  induction l as [|y l IH]; [done|]. rewrite not_elem_of_cons. intros [Hne Hl].
  rewrite filter_cons_True by congruence. by rewrite IH.
Qed.

Lemma all_held_held c w : c ∈ all_held w → ∃ id, c ∈ held id w.
Proof.
  unfold all_held. intros (l & Hc & Hl)%list_elem_of_join.
  apply list_elem_of_fmap in Hl as ([id l'] & -> & Hl).
  apply elem_of_map_to_list in Hl. exists id. unfold held. by rewrite Hl.
Qed.

(** X9.  A broadcast for one identifier leaves the arrays of the other
    identifiers, the response objects of the connections it does not drain,
    the listeners and the pending upstream calls as they are. *)
Theorem broadcast_is_local (id : string) (data : string) (w : World) :
  let w' := exec (sendDataToSubscribers id data) w in
  (∀ id', id' ≠ id → subscribers w' !! id' = subscribers w !! id') ∧
  (∀ c, c ∉ held id w → responses w' !! c = responses w !! c) ∧
  length (responses w') = length (responses w) ∧
  closeListeners w' = closeListeners w ∧
  timeoutListeners w' = timeoutListeners w ∧
  bodyListeners w' = bodyListeners w ∧
  pendingFetches w' = pendingFetches w.
Proof.
  cbv zeta. unfold exec.
  assert (Hi : property (subscribers w) id = Inherited ∨
               property (subscribers w) id ≠ Inherited)
    by (destruct (property (subscribers w) id); eauto).
  destruct Hi as [Hp|Hp].
  { by rewrite sendDataToSubscribers_inherited. }
  rewrite sendDataToSubscribers_exec by done. cbn.
  split_and!; try done.
  - intros id' Hne. by rewrite lookup_insert_ne.
  - intros c Hc. rewrite end_all_lookup, decide_False by done.
    by destruct (responses w !! c).
  - apply length_end_all.
Qed.

Lemma sendDataToSubscribers_drained id data w :
  subscribers w !! id = Some [] →
  sendDataToSubscribers id data w = (Normal tt, w).
Proof.
  intros Hl.
  rewrite (sendDataToSubscribers_exec id data w)
    by (by rewrite (property_own _ _ _ Hl)).
  unfold held. rewrite Hl. destruct w as [subs rs E cl tl bl pf un ex li wa sh].
  cbn [subscribers] in Hl.
  unfold set_subscribers, set_responses, set_endCalls.
  cbn [subscribers responses endCalls closeListeners timeoutListeners
       bodyListeners pendingFetches uncaught exitTimers listening warnings
       signalHandlers default fmap list_fmap end_all foldr foldl].
  by rewrite app_nil_r, (insert_id subs id [] Hl).
Qed.

Lemma onClose_drained c id w :
  subscribers w !! id = Some [] → onClose c id w = (Normal tt, w).
Proof.
  intros Hl. rewrite (onClose_exec c id w [] Hl).
  destruct w as [subs rs E cl tl bl pf un ex li wa sh].
  cbn [subscribers] in Hl. unfold set_subscribers.
  cbn [subscribers responses endCalls closeListeners timeoutListeners
       bodyListeners pendingFetches uncaught exitTimers listening warnings
       signalHandlers filter list_filter].
  by rewrite (insert_id subs id [] Hl).
Qed.

Lemma sendDataToSubscribers_drains id data w :
  prototype_member id = false →
  subscribers (exec (sendDataToSubscribers id data) w) !! id = Some [].
Proof.
  intros Hid. unfold exec.
  rewrite (sendDataToSubscribers_exec id data w)
    by (by apply property_not_inherited).
  cbn [snd]. unfold set_subscribers. cbn [subscribers].
  apply lookup_insert_eq.
Qed.

(** X10.  After a broadcast for an identifier that names no member of
    [Object.prototype], a second broadcast for it and the close listener of
    any connection for it return normally and change nothing: the drained
    array is empty, not absent. *)
Theorem drained_identifier_is_quiet
    (id : string) (data data' : string) (c : conn) (w : World) :
  prototype_member id = false →
  let w1 := exec (sendDataToSubscribers id data) w in
  sendDataToSubscribers id data' w1 = (Normal tt, w1) ∧
  onClose c id w1 = (Normal tt, w1).
Proof.
  intros Hid. cbv zeta. split.
  - by apply sendDataToSubscribers_drained, sendDataToSubscribers_drains.
  - by apply onClose_drained, sendDataToSubscribers_drains.
Qed.

Lemma drained_identifier_is_quiet_witness :
  let w := exec (saveSubscriber default_config 0 "dev-1")
             (set_responses (λ _, [fresh_response]) initial_world) in
  let w1 := exec (sendDataToSubscribers "dev-1" "42.5") w in
  prototype_member "dev-1" = false ∧
  held "dev-1" w = [0] ∧
  subscribers w1 !! "dev-1" = Some [] ∧
  sendDataToSubscribers "dev-1" "43" w1 = (Normal tt, w1) ∧
  onClose 0 "dev-1" w1 = (Normal tt, w1).
Proof.
  intros w w1.
  destruct (drained_identifier_is_quiet "dev-1" "42.5" "43" 0 w eq_refl)
    as [Hs Hc].
  split_and!; [reflexivity | reflexivity | reflexivity | exact Hs | exact Hc].
Defined.

(** X11.  Registering a connection that is not yet held, under an
    identifier that names no member of [Object.prototype], and then running
    its close listener gives back the array of its identifier as it was; the
    other identifiers are untouched, and no response object is changed and
    no [end] call made: a peer close resolves nothing. *)
Theorem register_then_close_round_trip
    (cfg : Config) (id : string) (c : conn) (w : World) :
  prototype_member id = false →
  c ∉ held id w →
  let w1 := exec (saveSubscriber cfg c id) w in
  let w2 := exec (onClose c id) w1 in
  held id w1 = held id w ++ [c] ∧
  outcome (onClose c id) w1 = Normal tt ∧
  held id w2 = held id w ∧
  (∀ id', id' ≠ id → subscribers w2 !! id' = subscribers w !! id') ∧
  responses w2 = responses w ∧
  endCalls w2 = endCalls w.
Proof.
  intros Hid Hc w1 w2.
  assert (Hp : property (subscribers w) id ≠ Inherited)
    by by apply property_not_inherited.
  assert (H1 : ∃ f, w1 = set_timeoutListeners f (registered c id w)).
  { unfold w1. rewrite saveSubscriber_exec.
    destruct (property (subscribers w) id); [|done|];
      (destruct (armed _ _ _); [by eexists | by exists (λ ls, ls); destruct w]). }
  destruct H1 as [f H1].
  assert (Hl : subscribers w1 !! id = Some (held id w ++ [c])).
  { rewrite H1. apply lookup_insert_eq. }
  assert (H2 : onClose c id w1 =
    (Normal tt,
     set_subscribers (<[id := filter (λ s, s ≠ c) (held id w ++ [c])]>) w1))
    by apply (onClose_exec c id w1 _ Hl).
  assert (Hw2 : w2 =
     set_subscribers (<[id := filter (λ s, s ≠ c) (held id w ++ [c])]>) w1).
  { unfold w2, exec. by rewrite H2. }
  split_and!.
  - unfold held at 1. by rewrite Hl.
  - unfold outcome. by rewrite H2.
  - rewrite Hw2. unfold held at 1. cbn. rewrite lookup_insert_eq. cbn.
    rewrite filter_app, filter_ne_absent by done.
    rewrite filter_cons_False by (intros ?; done). by rewrite app_nil_r.
  - intros id' Hne. rewrite Hw2, H1. cbn. by rewrite !lookup_insert_ne.
  - by rewrite Hw2, H1.
  - by rewrite Hw2, H1.
Qed.

Lemma register_then_close_round_trip_witness :
  let w := exec (saveSubscriber default_config 0 "dev-1")
             (set_responses (λ _, [fresh_response; fresh_response]) initial_world) in
  let w2 := exec (onClose 1 "dev-1") (exec (saveSubscriber default_config 1 "dev-1") w) in
  prototype_member "dev-1" = false ∧
  (1 ∉ held "dev-1" w) ∧ held "dev-1" w2 = [0] ∧ responses w2 = responses w.
Proof.
  intros w w2.
  assert (H : 1 ∉ held "dev-1" w).
  { vm_compute. intros H. apply elem_of_cons in H as [H|H]; [done|].
    by apply elem_of_nil in H. }
  destruct (register_then_close_round_trip default_config "dev-1" 1 w eq_refl H)
    as (_ & _ & Hh & _ & Hr & _).
  split_and!; [reflexivity | exact H | exact Hh | exact Hr].
Defined.

(** X12.  [parseDatabaseResponse] with a payload of more than two
    characters, for an identifier that names no member of
    [Object.prototype], on an open connection: [res.end(data)] is called on
    the connections held for the identifier, in order, and then on the
    requester; the requester and every held connection that was open are
    finished with a reply whose body is [data], which is written to each of
    their sockets that is not destroyed; the array of the identifier is
    emptied; the requester is not registered and no listener is installed. *)
Theorem real_payload_answers_requester_and_subscribers
    (cfg : Config) (id : string) (c : conn) (data : string) (r : ServerResponse)
    (w : World) :
  2 < String.length data →
  prototype_member id = false →
  responses w !! c = Some r →
  sent r = None →
  let w' := exec (parseDatabaseResponse cfg c id data) w in
  outcome (parseDatabaseResponse cfg c id data) w = Normal tt ∧
  (∀ x rx, x = c ∨ x ∈ held id w → responses w !! x = Some rx → sent rx = None →
     reply_of x w' = Some (mkReply (statusCode rx) (headers rx) data) ∧
     (destroyed rx = false →
      received x w' = Some (mkReply (statusCode rx) (headers rx) data))) ∧
  endCalls w' =
    endCalls w ++ ((λ x, (x, Some data)) <$> held id w) ++ [(c, Some data)] ∧
  subscribers w' = <[id := []]> (subscribers w) ∧
  closeListeners w' = closeListeners w ∧
  timeoutListeners w' = timeoutListeners w.
Proof.
  intros Hlen Hid Hr Hs. cbv zeta.
  assert (Hp : property (subscribers w) id ≠ Inherited)
    by by apply property_not_inherited.
  unfold parseDatabaseResponse, exec, outcome.
  destruct (Nat.leb_spec (String.length data) 2) as [?|_]; [lia|].
  unfold mbind, M_bind, bind.
  rewrite sendDataToSubscribers_exec, res_end_exec by done. cbn.
  assert (Hopen : ∀ x rx, x = c ∨ x ∈ held id w →
            responses w !! x = Some rx → sent rx = None →
            alter (finish (Some data)) c
              (end_all (held id w) (Some data) (responses w)) !! x
            = Some (mkServerResponse (statusCode rx) (headers rx)
                      (Some (mkReply (statusCode rx) (headers rx) data))
                      (destroyed rx) (negb (destroyed rx)))).
  { intros x rx Hx Hrx Hsx.
    destruct (decide (c = x)) as [->|Hne].
    - rewrite list_lookup_alter_eq, end_all_lookup, Hrx. cbn.
      case_decide; cbn; rewrite ?finish_finish; by rewrite finish_open.
    - rewrite list_lookup_alter_ne by done. destruct Hx as [->|Hx]; [done|].
      by rewrite (end_all_open _ _ _ _ _ Hx Hrx Hsx). }
  split_and!; try done.
  - intros x rx Hx Hrx Hsx. unfold reply_of, received. cbn.
    rewrite (Hopen x rx Hx Hrx Hsx). cbn. split; [done|]. by intros ->.
  - by rewrite <- app_assoc.
Qed.

Lemma real_payload_answers_requester_and_subscribers_witness :
  let w := exec (saveSubscriber default_config 0 "dev-1")
             (set_responses (λ _, [fresh_response; fresh_response]) initial_world) in
  let w' := exec (parseDatabaseResponse default_config 1 "dev-1" "17.2") w in
  2 < String.length "17.2" ∧
  prototype_member "dev-1" = false ∧
  responses w !! 1 = Some fresh_response ∧
  sent fresh_response = None ∧
  received 1 w' = Some (mkReply 200 [] "17.2") ∧
  received 0 w' = Some (mkReply 200 [] "17.2") ∧
  endCalls w' = [(0, Some "17.2"); (1, Some "17.2")].
Proof.
  intros w w'.
  assert (H : 2 < String.length "17.2") by (cbn; lia).
  destruct (real_payload_answers_requester_and_subscribers default_config "dev-1" 1
              "17.2" fresh_response w H eq_refl eq_refl eq_refl) as (_ & H0 & He & _).
  split_and!; [exact H | reflexivity | reflexivity | reflexivity | | | exact He].
  - apply (H0 1 fresh_response); [by left | reflexivity | reflexivity | reflexivity].
  - apply (H0 0 fresh_response); [|reflexivity|reflexivity|reflexivity].
    right. vm_compute. apply elem_of_cons. by left.
Defined.

(** X13.  [parseDatabaseResponse] with a payload of at most two characters,
    for an identifier that names no member of [Object.prototype]: the
    payload is sent to nobody (no [end] call, no response object changed),
    and the requester is appended to the array of its identifier with one
    close listener; the other identifiers are untouched.  One timeout
    callback is installed when the socket of the requester is live and the
    delay a positive number; none is installed on a destroyed socket; and
    with a delay taken from the environment [setTimeout] throws on a live
    socket, after the requester was registered. *)
Theorem empty_payload_parks_the_requester
    (cfg : Config) (id : string) (c : conn) (data : string) (r : ServerResponse)
    (w : World) :
  String.length data ≤ 2 →
  prototype_member id = false →
  responses w !! c = Some r →
  let w' := exec (parseDatabaseResponse cfg c id data) w in
  responses w' = responses w ∧
  endCalls w' = endCalls w ∧
  held id w' = held id w ++ [c] ∧
  (∀ id', id' ≠ id → subscribers w' !! id' = subscribers w !! id') ∧
  closeListeners w' = closeListeners w ++ [(c, id)] ∧
  (∀ n, subscriberTimeout cfg = Millis n → n ≠ 0%N → destroyed r = false →
     outcome (parseDatabaseResponse cfg c id data) w = Normal tt ∧
     timeoutListeners w' = timeoutListeners w ++ [(c, id)]) ∧
  (destroyed r = true →
     outcome (parseDatabaseResponse cfg c id data) w = Normal tt ∧
     timeoutListeners w' = timeoutListeners w) ∧
  (∀ s, subscriberTimeout cfg = Text s → destroyed r = false →
     outcome (parseDatabaseResponse cfg c id data) w
     = Thrown (TypeError "ERR_INVALID_ARG_TYPE") ∧
     timeoutListeners w' = timeoutListeners w).
Proof.
  intros Hlen Hid Hr. cbv zeta.
  assert (Hp : property (subscribers w) id ≠ Inherited)
    by by apply property_not_inherited.
  unfold parseDatabaseResponse.
  destruct (Nat.leb_spec (String.length data) 2) as [_|?]; [|lia].
  assert (Hrr : responses (registered c id w) !! c = Some r) by done.
  assert (Hx : ∃ f, exec (saveSubscriber cfg c id) w
                    = set_timeoutListeners f (registered c id w)).
  { rewrite saveSubscriber_exec.
    destruct (property (subscribers w) id); [|done|];
      (destruct (armed _ _ _); [by eexists | by exists (λ ls, ls); destruct w]). }
  destruct Hx as [f Hx].
  split_and!.
  - by rewrite Hx.
  - by rewrite Hx.
  - rewrite held_saveSubscriber by done. by rewrite decide_True.
  - intros id' Hne. rewrite Hx. cbn. by rewrite lookup_insert_ne.
  - by rewrite Hx.
  - intros n Hn Hn0 Hd. split.
    + unfold outcome. rewrite saveSubscriber_registers, Hn by done.
      apply socket_setTimeout_number.
    + rewrite saveSubscriber_exec.
      assert (Ha : armed (subscriberTimeout cfg) c w = true).
      { unfold armed. rewrite Hr, Hn, Hd. cbn. by apply N.eqb_neq in Hn0 as ->. }
      rewrite Ha. by destruct (property (subscribers w) id).
  - intros Hd. unfold outcome, exec.
    rewrite saveSubscriber_registers by done.
    by rewrite (socket_setTimeout_destroyed _ _ _ _ _ Hrr Hd).
  - intros s Hn Hd. unfold outcome, exec.
    rewrite saveSubscriber_registers, Hn by done.
    by rewrite (socket_setTimeout_text _ _ _ _ _ Hrr Hd).
Qed.

Lemma empty_payload_parks_the_requester_witness :
  let w := set_responses (λ _, [fresh_response]) initial_world in
  let w' := exec (parseDatabaseResponse default_config 0 "dev-1" "ok") w in
  String.length "ok" ≤ 2 ∧
  prototype_member "dev-1" = false ∧
  responses w !! 0 = Some fresh_response ∧
  held "dev-1" w' = [0] ∧ reply_of 0 w' = None ∧ endCalls w' = [] ∧
  timeoutListeners w' = [(0, "dev-1")].
Proof.
  intros w w'.
  assert (H : String.length "ok" ≤ 2) by (cbn; lia).
  assert (Hn : 600000%N ≠ 0%N) by done.
  destruct (empty_payload_parks_the_requester default_config "dev-1" 0 "ok"
              fresh_response w H eq_refl eq_refl)
    as (_ & He & Hh & _ & _ & Ht & _).
  split_and!; [exact H | reflexivity | reflexivity | exact Hh | reflexivity | exact He |].
  exact (proj2 (Ht 600000%N eq_refl Hn eq_refl)).
Defined.

(** X14.  [gracefullyShutdown] answers only what is in the registry: the
    response object of a connection held for no identifier is left as it
    is, and so are the registry, the listeners and the pending upstream
    calls. *)
Theorem shutdown_spares_unregistered_connections (c : conn) (w : World) :
  (∀ id, c ∉ held id w) →
  let w' := exec gracefullyShutdown w in
  responses w' !! c = responses w !! c ∧
  subscribers w' = subscribers w ∧
  bodyListeners w' = bodyListeners w ∧
  pendingFetches w' = pendingFetches w ∧
  closeListeners w' = closeListeners w ∧
  timeoutListeners w' = timeoutListeners w.
Proof.
  intros Hc. cbv zeta. unfold exec. rewrite gracefullyShutdown_exec. cbn.
  split_and!; try done.
  rewrite end_all_lookup, decide_False; [by destruct (responses w !! c)|].
  intros [id Hid]%all_held_held. by eapply Hc.
Qed.

Lemma shutdown_spares_unregistered_connections_witness :
  let w := exec (saveSubscriber default_config 0 "dev-1")
             (set_responses (λ _, [fresh_response; fresh_response]) initial_world) in
  let w' := exec gracefullyShutdown w in
  (∀ id, 1 ∉ held id w) ∧
  reply_of 0 w' = Some (mkReply 200 [] EmptyString) ∧
  responses w' !! 1 = Some fresh_response.
Proof.
  intros w w'.
  assert (H : ∀ id, 1 ∉ held id w).
  { intros id. unfold w. rewrite held_saveSubscriber by done.
    case_decide as Hid.
    - intros H1. apply elem_of_cons in H1 as [H1|H1]; [done|].
      by apply elem_of_nil in H1.
    - apply not_elem_of_nil. }
  destruct (shutdown_spares_unregistered_connections 1 w H) as (Hr & _).
  split_and!; [exact H | reflexivity | exact Hr].
Defined.

(** ** Executions: what no event does *)

#[local] Instance grows_preorder : PreOrder grows.
Proof.
  split.
  - intros w. split_and!; eauto.
  - intros w1 w2 w3 (Hl1 & Hu1 & Hk1 & Hc1) (Hl2 & Hu2 & Hk2 & Hc2).
    split_and!; [congruence | congruence | eauto |].
    intros l [Hl|Hl]%Hc2; [|by right].
    apply Hc1 in Hl as [Hl|Hl]; [by left|right; eauto].
Qed.

Lemma grows_frame f :
  (∀ w, length (responses (f w)) = length (responses w) ∧
        uncaught (f w) = uncaught w ∧
        subscribers (f w) = subscribers w ∧
        closeListeners (f w) = closeListeners w) →
  respects grows (modify f).
Proof.
  intros Hf w. destruct (Hf w) as (Hl & Hu & Hs & Hc). cbn.
  split_and!; [done | done | by rewrite Hs | rewrite Hc; eauto].
Qed.

Lemma grows_insert id l :
  respects grows (modify (set_subscribers (<[id := l]>))).
Proof.
  intros w. split_and!; [done | done | | by left].
  intros id' Hid. cbn. destruct (decide (id = id')) as [<-|Hne].
  - rewrite lookup_insert_eq. eauto.
  - by rewrite lookup_insert_ne.
Qed.

Lemma grows_set_statusCode c n : respects grows (set_statusCode c n).
Proof.
  apply grows_frame. intros w. split_and!; try done. cbn. apply length_alter.
Qed.

Lemma grows_res_end c d : respects grows (res_end c d).
Proof.
  intros w. split_and!; [cbn; apply length_alter | done | done | by left].
Qed.

Lemma grows_setHeader c name value : respects grows (setHeader c name value).
Proof.
  intros w. unfold setHeader. unfold_M. cbn.
  destruct (responses w !! c) as [r|]; [|done].
  destruct (sent r); [done|].
  split_and!; [cbn; apply length_insert | done | done | by left].
Qed.

Lemma grows_saveSubscriber cfg c id : respects grows (saveSubscriber cfg c id).
Proof.
  intros w.
  assert (Hx : exec (saveSubscriber cfg c id) w = w ∨
               ∃ f, exec (saveSubscriber cfg c id) w
                    = set_timeoutListeners f (registered c id w)).
  { rewrite saveSubscriber_exec.
    destruct (property (subscribers w) id); [right|by left|right];
      (destruct (armed _ _ _); [by eexists | by exists (λ ls, ls); destruct w]). }
  destruct Hx as [->|[f ->]]; [done|].
  split_and!; [done | done | |]; cbn.
  - intros id' Hid. destruct (decide (id = id')) as [<-|Hne].
    + rewrite lookup_insert_eq. eauto.
    + by rewrite lookup_insert_ne.
  - intros l [Hl| ->%list_elem_of_singleton]%elem_of_app; [by left|right].
    cbn. rewrite lookup_insert_eq. eauto.
Qed.

#[local] Hint Resolve grows_insert grows_set_statusCode grows_res_end
  grows_setHeader grows_saveSubscriber : respect.

Ltac respect_grows :=
  respect_with ltac:(apply grows_frame; intros ?; by split_and!).

Lemma grows_onClose c id : respects grows (onClose c id).
Proof. unfold onClose, the_array. respect_grows. Qed.

Lemma grows_onTimeout c id : respects grows (onTimeout c id).
Proof. unfold onTimeout. respect_grows. Qed.

Lemma grows_sendDataToSubscribers id data :
  respects grows (sendDataToSubscribers id data).
Proof. unfold sendDataToSubscribers, the_array. respect_grows. Qed.

Lemma grows_gracefullyShutdown : respects grows gracefullyShutdown.
Proof. unfold gracefullyShutdown. respect_grows. Qed.

Lemma grows_GetDeviceData id : respects grows (GetDeviceData id).
Proof. unfold GetDeviceData. respect_grows. Qed.

Lemma grows_GetSetDeviceData id b : respects grows (GetSetDeviceData id b).
Proof. unfold GetSetDeviceData. respect_grows. Qed.

Lemma grows_then_ p r : respects grows (then_ p r).
Proof. unfold then_. respect_grows. Qed.

#[local] Hint Resolve grows_onClose grows_onTimeout
  grows_sendDataToSubscribers grows_gracefullyShutdown grows_GetDeviceData
  grows_GetSetDeviceData grows_then_ : respect.

Lemma grows_parseDatabaseResponse cfg c id data :
  respects grows (parseDatabaseResponse cfg c id data).
Proof. unfold parseDatabaseResponse. respect_grows. Qed.

Lemma grows_onBodyEnd c id message : respects grows (onBodyEnd c id message).
Proof. unfold onBodyEnd. respect_grows. Qed.

Lemma grows_handleSubscribeRequest rq c id :
  respects grows (handleSubscribeRequest rq c id).
Proof. unfold handleSubscribeRequest. respect_grows. Qed.

Lemma grows_handlePublishRequest rq c : respects grows (handlePublishRequest rq c).
Proof. unfold handlePublishRequest. respect_grows. Qed.

#[local] Hint Resolve grows_parseDatabaseResponse grows_onBodyEnd
  grows_handleSubscribeRequest grows_handlePublishRequest : respect.

Lemma grows_handleRequest cfg rq c : respects grows (handleRequest cfg rq c).
Proof. unfold handleRequest, handleRequest_try. respect_grows. Qed.

Lemma grows_on_fulfilled cfg reaction data :
  respects grows (on_fulfilled cfg reaction data).
Proof. unfold on_fulfilled. respect_grows. Qed.

Lemma grows_on_rejected reaction : respects grows (on_rejected reaction).
Proof. unfold on_rejected. respect_grows. Qed.

#[local] Hint Resolve grows_handleRequest grows_on_fulfilled
  grows_on_rejected : respect.

Lemma dispatch_normal (m : M unit) w :
  outcome m w = Normal tt → dispatch m w = exec m w.
Proof. unfold outcome, dispatch, exec. by destruct (m w) as [[[]|e] w']. Qed.

Lemma dispatch_thrown (m : M unit) w e :
  outcome m w = Thrown e →
  dispatch m w = set_uncaught (λ l, l ++ [e]) (exec m w).
Proof.
  unfold outcome, dispatch, exec. destruct (m w) as [[[]|e'] w']; [done|].
  by intros [= ->].
Qed.

(** What a dispatched handler leaves of the state it started in. *)
Lemma grows_dispatch (m : M unit) w :
  respects grows m →
  length (responses (dispatch m w)) = length (responses w) ∧
  (∀ id, is_Some (subscribers w !! id) → is_Some (subscribers (dispatch m w) !! id)) ∧
  (∀ l, l ∈ closeListeners (dispatch m w) →
     l ∈ closeListeners w ∨ is_Some (subscribers (dispatch m w) !! l.2)) ∧
  (outcome m w = Normal tt → uncaught (dispatch m w) = uncaught w) ∧
  (∀ e, outcome m w = Thrown e → uncaught (dispatch m w) = uncaught w ++ [e]).
Proof.
  intros Hm. destruct (Hm w) as (Hl & Hu & Hk & Hc).
  unfold dispatch, outcome, exec in *.
  destruct (m w) as [[[]|e] w']; cbn in *; split_and!; try done.
  - intros e' [= ->]. by rewrite Hu.
Qed.

(** One event: the response objects, the keys of the registry and the close
    listeners. *)
Lemma react_grows cfg ev w :
  close_listeners_keyed w →
  let w' := react cfg ev w in
  length (responses w') =
    (if ev is EvRequest _ then S (length (responses w)) else length (responses w)) ∧
  (∀ id, is_Some (subscribers w !! id) → is_Some (subscribers w' !! id)) ∧
  close_listeners_keyed w'.
Proof.
  intros Hw. cbv zeta.
  assert (Hfin : ∀ (m : M unit) w0 n,
    respects grows m →
    length (responses w0) = n →
    subscribers w0 = subscribers w →
    (∀ l, l ∈ closeListeners w0 → l ∈ closeListeners w) →
    length (responses (dispatch m w0)) = n ∧
    (∀ id, is_Some (subscribers w !! id) → is_Some (subscribers (dispatch m w0) !! id)) ∧
    close_listeners_keyed (dispatch m w0)).
  { intros m w0 n Hm <- Hs Hc.
    destruct (grows_dispatch m w0 Hm) as (Hl & Hk & Hcl & _).
    rewrite Hs in Hk. split_and!; [done | done |].
    intros l [Hl'|Hl']%Hcl; [|done]. apply Hk, Hw, Hc, Hl'. }
  destruct ev; cbn [react].
  - apply Hfin; [respect_grows | | done | done].
    cbn. rewrite length_app. cbn. lia.
  - apply Hfin; [respect_grows | done | done | done].
  - destruct (pendingFetches w !! p) as [f|]; [|by eauto].
    apply Hfin; [respect_grows | done | done | done].
  - destruct (pendingFetches w !! p) as [f|]; [|by eauto].
    apply Hfin; [respect_grows | done | done | done].
  - apply Hfin; [respect_grows | done | done |].
    intros l. cbn. unfold others_of. rewrite list_elem_of_filter. tauto.
  - destruct (socket_destroyed c w); [by eauto|].
    apply Hfin; [respect_grows | cbn; apply length_alter | done | done].
  - split_and!; [cbn; apply length_alter | done | done].
  - apply Hfin; [respect_grows | done | done | done].
Qed.

Lemma run_snoc cfg evs ev w :
  run cfg (evs ++ [ev]) w = react cfg ev (run cfg evs w).
Proof. unfold run. by rewrite foldl_app. Qed.

Lemma close_listeners_keyed_run cfg evs w :
  close_listeners_keyed w → close_listeners_keyed (run cfg evs w).
Proof.
  revert w. induction evs as [|ev evs IH]; intros w Hw; [done|]. cbn.
  apply IH. by apply react_grows.
Qed.

Lemma react_keeps_keys cfg ev w id :
  is_Some (subscribers w !! id) → is_Some (subscribers (react cfg ev w) !! id).
Proof.
  assert (Hfin : ∀ (m : M unit) w0,
    respects grows m → subscribers w0 = subscribers w →
    is_Some (subscribers w !! id) → is_Some (subscribers (dispatch m w0) !! id)).
  { intros m w0 Hm Hs. rewrite <- Hs. by apply grows_dispatch. }
  destruct ev; cbn [react]; try (apply Hfin; [respect_grows | done]).
  - destruct (pendingFetches w !! p); [|done]. apply Hfin; [respect_grows | done].
  - destruct (pendingFetches w !! p); [|done]. apply Hfin; [respect_grows | done].
  - destruct (socket_destroyed c w); [done|]. apply Hfin; [respect_grows | done].
  - done.
Qed.

(** X6.  No event deletes a key of the registry: an identifier that has an
    entry keeps one (possibly the empty array) along every execution. *)
Theorem registry_keys_are_never_deleted (cfg : Config) (evs : list Event) (id : string) (w : World) :
  is_Some (subscribers w !! id) →
  is_Some (subscribers (run cfg evs w) !! id).
Proof.
  revert w. induction evs as [|ev evs IH]; intros w Hw; [done|]. cbn.
  by apply IH, react_keeps_keys.
Qed.

Lemma registry_keys_are_never_deleted_witness :
  let w := exec (saveSubscriber default_config 0 "dev-1")
             (set_responses (λ _, [fresh_response]) initial_world) in
  let w' := run default_config
              [EvFetchResolve 0 "42.5"; EvClose 0; EvTimeout 0; EvShutdown] w in
  is_Some (subscribers w !! "dev-1") ∧ subscribers w' !! "dev-1" = Some [] ∧
  is_Some (subscribers w' !! "dev-1").
Proof.
  intros w w'.
  assert (H : is_Some (subscribers w !! "dev-1")) by (by exists [0]).
  split_and!; [exact H | reflexivity |].
  exact (registry_keys_are_never_deleted default_config _ "dev-1" w H).
Defined.

Lemma close_listeners_keyed_initial : close_listeners_keyed initial_world.
Proof. intros l Hl. by apply elem_of_nil in Hl. Qed.

Lemma all_answered_react cfg ev w :
  close_listeners_keyed w → all_answered w → all_answered (react cfg ev w).
Proof.
  intros Hk Hw c Hc.
  destruct (react_grows cfg ev w Hk) as (Hl & _).
  assert (Hold : c < length (responses w) →
            ∃ x, reply_of c (react cfg ev w) = Some x ∧
                 received c (react cfg ev w) = Some x ∧ x ∈ router_replies).
  { intros (x & Hx & Hd & Hin)%Hw. exists x.
    destruct (keeps_replies_react cfg ev w c x Hx) as [Hx' Hd'].
    split_and!; [done | congruence | done]. }
  destruct ev; try (apply Hold; lia).
  destruct (decide (c < length (responses w))) as [|Hn]; [by apply Hold|].
  assert (c = length (responses w)) as -> by lia.
  apply handleRequest_answers.
Qed.

Lemma all_answered_run cfg evs w :
  close_listeners_keyed w → all_answered w → all_answered (run cfg evs w).
Proof.
  revert w. induction evs as [|ev evs IH]; intros w Hk Hw; [done|]. cbn.
  apply IH; [by apply react_grows | by apply all_answered_react].
Qed.

(** X7.  Along every execution from the initial state, every connection
    accepted so far, and so every connection in the registry, has already
    been sent one of the five replies of the router: the registry never
    holds an open connection, and [res.end(data)] of a broadcast never
    reaches a requester that is still waiting. *)
Theorem every_connection_is_answered_by_the_router (cfg : Config) (evs : list Event) :
  let w := run cfg evs initial_world in
  (∀ c, c < length (responses w) →
     ∃ x, reply_of c w = Some x ∧ x ∈ router_replies) ∧
  (∀ id c, c ∈ held id w →
     ∃ x, reply_of c w = Some x ∧ x ∈ router_replies).
Proof.
  intros w.
  assert (Ha : all_answered w).
  { apply all_answered_run; [apply close_listeners_keyed_initial|].
    intros c Hc. cbn in Hc. lia. }
  assert (Hb : ∀ c, c < length (responses w) →
            ∃ x, reply_of c w = Some x ∧ x ∈ router_replies).
  { intros c (x & Hx & _ & Hin)%Ha. eauto. }
  split; [done|]. intros id c Hc. apply Hb.
  by eapply (held_allocated _ (consistent_run cfg evs _ consistent_initial)).
Qed.

(** X8.  Along every execution from the initial state, no array of the
    registry holds a connection twice, every connection it holds is one that
    was accepted, and a connection whose body is still being read or whose
    upstream call is pending is not in the registry. *)
Theorem registry_holds_no_connection_twice (cfg : Config) (evs : list Event) (id : string) :
  let w := run cfg evs initial_world in
  NoDup (held id w) ∧
  (∀ c, c ∈ held id w → c < length (responses w)) ∧
  (∀ c, c ∈ in_flight w → c ∉ held id w).
Proof.
  intros w.
  destruct (consistent_run cfg evs _ consistent_initial) as [H1 _ H3 _ H5].
  split_and!; [apply H1 | intros c; apply H5 | intros c Hc; by apply H3].
Qed.

(** ** The publish path never runs *)

#[local] Instance chains_no_publish_preorder : PreOrder chains_no_publish.
Proof. split; [intros w Hw; exact Hw | intros w1 w2 w3 H12 H23 ?; auto]. Qed.

Lemma chains_no_publish_frame f :
  (∀ w, pendingFetches (f w) = pendingFetches w) →
  respects chains_no_publish (modify f).
Proof. intros Hf w. unfold chains_no_publish, no_publish_pending. cbn. by rewrite Hf. Qed.

Lemma chains_no_publish_res_end c d : respects chains_no_publish (res_end c d).
Proof. intros w Hw. exact Hw. Qed.

Lemma chains_no_publish_setHeader c name value :
  respects chains_no_publish (setHeader c name value).
Proof.
  intros w. unfold setHeader. unfold_M. cbn.
  intros Hw. destruct (responses w !! c) as [r|]; [|exact Hw].
  destruct (sent r); exact Hw.
Qed.

Lemma chains_no_publish_saveSubscriber cfg c id :
  respects chains_no_publish (saveSubscriber cfg c id).
Proof.
  intros w Hw. rewrite saveSubscriber_exec.
  destruct (property (subscribers w) id); [|done|]; by destruct (armed _ _ _).
Qed.

Lemma chains_no_publish_sendDataToSubscribers id data :
  respects chains_no_publish (sendDataToSubscribers id data).
Proof.
  intros w Hw. unfold exec.
  destruct (property (subscribers w) id) eqn:Hp.
  - by rewrite sendDataToSubscribers_exec by congruence.
  - by rewrite sendDataToSubscribers_inherited.
  - by rewrite sendDataToSubscribers_exec by congruence.
Qed.

Lemma chains_no_publish_gracefullyShutdown :
  respects chains_no_publish gracefullyShutdown.
Proof. intros w Hw. unfold exec. rewrite gracefullyShutdown_exec. exact Hw. Qed.

Lemma chains_no_publish_onBodyEnd c id message :
  respects chains_no_publish (onBodyEnd c id message).
Proof.
  intros w. unfold exec. rewrite onBodyEnd_exec.
  unfold chains_no_publish, no_publish_pending. cbn. intros Hw.
  apply Forall_app. split; [done|]. by apply Forall_singleton.
Qed.

Lemma chains_no_publish_handleSubscribeRequest rq c id :
  respects chains_no_publish (handleSubscribeRequest rq c id).
Proof.
  intros w. unfold exec.
  destruct (decide (method rq = "POST")) as [Hp|Hp];
    [|destruct (decide (method rq = "GET")) as [Hg|Hg]].
  - rewrite handleSubscribeRequest_POST by done. intros Hw. exact Hw.
  - rewrite handleSubscribeRequest_GET by done.
    unfold chains_no_publish, no_publish_pending. cbn. intros Hw.
    apply Forall_app. split; [done|]. by apply Forall_singleton.
  - rewrite handleSubscribeRequest_other by done. intros Hw. exact Hw.
Qed.

Lemma chains_no_publish_handlePublishRequest rq c :
  respects chains_no_publish (handlePublishRequest rq c).
Proof. intros w Hw. exact Hw. Qed.

Lemma chains_no_publish_onClose c id : respects chains_no_publish (onClose c id).
Proof.
  intros w Hw. unfold exec.
  destruct (subscribers w !! id) as [l|] eqn:E.
  - by rewrite (onClose_exec _ _ _ _ E).
  - by destruct (onClose_throws c id w E) as [e ->].
Qed.

#[local] Hint Resolve chains_no_publish_res_end chains_no_publish_setHeader
  chains_no_publish_saveSubscriber chains_no_publish_sendDataToSubscribers
  chains_no_publish_gracefullyShutdown chains_no_publish_onBodyEnd
  chains_no_publish_handleSubscribeRequest
  chains_no_publish_handlePublishRequest chains_no_publish_onClose : respect.

Ltac respect_no_publish :=
  respect_with ltac:(apply chains_no_publish_frame; intros ?; reflexivity).

Lemma chains_no_publish_dispatch (m : M unit) w :
  respects chains_no_publish m → chains_no_publish w (dispatch m w).
Proof.
  intros Hm Hw. specialize (Hm w Hw). unfold dispatch, exec in *.
  destruct (m w) as [[[]|e] w']; exact Hm.
Qed.

Lemma no_publish_pending_delete p w :
  no_publish_pending w → no_publish_pending (set_pendingFetches (delete p) w).
Proof.
  unfold no_publish_pending. cbn. rewrite !Forall_forall. intros Hw f Hf.
  apply Hw. eapply elem_of_sublist; [done | apply sublist_delete].
Qed.

Lemma no_publish_pending_react cfg ev w :
  no_publish_pending w → no_publish_pending (react cfg ev w).
Proof.
  intros Hw. destruct ev; cbn [react].
  - apply chains_no_publish_dispatch; [|done].
    unfold handleRequest, handleRequest_try, set_statusCode. respect_no_publish.
  - apply chains_no_publish_dispatch; [respect_no_publish | done].
  - destruct (pendingFetches w !! p) as [[call r]|] eqn:Hp; [|done].
    apply chains_no_publish_dispatch; [|by apply no_publish_pending_delete].
    unfold on_fulfilled, parseDatabaseResponse. cbn. respect_no_publish.
  - destruct (pendingFetches w !! p) as [[call r]|] eqn:Hp; [|done].
    apply chains_no_publish_dispatch; [|by apply no_publish_pending_delete].
    unfold on_rejected. respect_no_publish.
  - apply chains_no_publish_dispatch; [respect_no_publish | done].
  - destruct (socket_destroyed c w); [done|].
    apply chains_no_publish_dispatch; [|done].
    unfold onTimeout. respect_no_publish.
  - done.
  - apply chains_no_publish_dispatch; [respect_no_publish | done].
Qed.

Lemma no_publish_pending_run cfg evs w :
  no_publish_pending w → no_publish_pending (run cfg evs w).
Proof.
  revert w. induction evs as [|ev evs IH]; intros w Hw; [exact Hw|]. cbn.
  by apply IH, no_publish_pending_react.
Qed.

(** X17.  Along every execution from the initial state, no upstream call
    is pending with the reaction of the publish path: a publish signal never
    fetches and never broadcasts. *)
Theorem publish_reaction_is_never_chained (cfg : Config) (evs : list Event) :
  Forall (λ f, ∀ id, f.2 ≠ ThenPublish id)
    (pendingFetches (run cfg evs initial_world)).
Proof.
  apply no_publish_pending_run. apply Forall_nil_2.
Qed.

(** ** Names of [Object.prototype] *)

#[local] Instance stays_prototype_free_preorder : PreOrder stays_prototype_free.
Proof. split; [intros w Hw; exact Hw | intros w1 w2 w3 H12 H23 ?; auto]. Qed.

Lemma stays_prototype_free_frame f :
  (∀ w, subscribers (f w) = subscribers w) →
  respects stays_prototype_free (modify f).
Proof. intros Hf w Hw id Hid. cbn. rewrite Hf. by apply Hw. Qed.

Lemma prototype_free_insert id l w :
  prototype_member id = false → prototype_free w →
  prototype_free (set_subscribers (<[id := l]>) w).
Proof.
  intros Hid Hw id' Hid'. cbn.
  rewrite lookup_insert_ne; [by apply Hw | congruence].
Qed.

Lemma prototype_free_not_inherited w id :
  prototype_free w → property (subscribers w) id ≠ Inherited →
  prototype_member id = false.
Proof.
  intros Hw Hp. destruct (prototype_member id) eqn:E; [|done].
  exfalso. apply Hp, property_inherited. split; [by apply Hw | done].
Qed.

Lemma prototype_free_inherited w id :
  prototype_free w → prototype_member id = true →
  property (subscribers w) id = Inherited.
Proof. intros Hw Hid. apply property_inherited. split; [by apply Hw | done]. Qed.

Lemma stays_prototype_free_saveSubscriber cfg c id :
  respects stays_prototype_free (saveSubscriber cfg c id).
Proof.
  intros w Hw. rewrite saveSubscriber_exec.
  destruct (property (subscribers w) id) eqn:Hp; [|done|];
    (assert (Hid : prototype_member id = false)
       by (apply (prototype_free_not_inherited w); [done | congruence]));
    destruct (armed _ _ _); by apply (prototype_free_insert id _ w).
Qed.

Lemma stays_prototype_free_sendDataToSubscribers id data :
  respects stays_prototype_free (sendDataToSubscribers id data).
Proof.
  intros w Hw. unfold exec.
  destruct (property (subscribers w) id) eqn:Hp;
    [|by rewrite sendDataToSubscribers_inherited|];
    (assert (Hid : prototype_member id = false)
       by (apply (prototype_free_not_inherited w); [done | congruence]));
    rewrite sendDataToSubscribers_exec by congruence;
    by apply (prototype_free_insert id _ w).
Qed.

Lemma stays_prototype_free_onClose c id :
  respects stays_prototype_free (onClose c id).
Proof.
  intros w Hw. unfold exec.
  destruct (subscribers w !! id) as [l|] eqn:E.
  - rewrite (onClose_exec _ _ _ _ E). apply prototype_free_insert; [|done].
    apply (prototype_free_not_inherited w); [done|].
    by rewrite (property_own _ _ _ E).
  - by destruct (onClose_throws c id w E) as [e ->].
Qed.

#[local] Hint Resolve stays_prototype_free_saveSubscriber
  stays_prototype_free_sendDataToSubscribers stays_prototype_free_onClose : respect.

Ltac respect_prototype :=
  unfold handleRequest, handleRequest_try, handleSubscribeRequest,
    handlePublishRequest, on_fulfilled, on_rejected, parseDatabaseResponse,
    onBodyEnd, gracefullyShutdown, onTimeout, GetDeviceData, GetSetDeviceData,
    then_, res_end, setHeader, set_statusCode;
  respect_with ltac:(apply stays_prototype_free_frame; intros ?; reflexivity).

Lemma prototype_free_react cfg ev w :
  prototype_free w → prototype_free (react cfg ev w).
Proof.
  intros Hw.
  assert (Hd : ∀ (m : M unit) w0,
            respects stays_prototype_free m → subscribers w0 = subscribers w →
            prototype_free (dispatch m w0)).
  { intros m w0 Hm Hs.
    assert (H0 : prototype_free w0) by (intros id Hid; rewrite Hs; by apply Hw).
    specialize (Hm w0 H0). unfold dispatch, exec in *.
    by destruct (m w0) as [[[]|e] w']. }
  destruct ev; cbn [react].
  - apply Hd; [respect_prototype | done].
  - apply Hd; [respect_prototype | done].
  - destruct (pendingFetches w !! p); [|done]. apply Hd; [respect_prototype | done].
  - destruct (pendingFetches w !! p); [|done]. apply Hd; [respect_prototype | done].
  - apply Hd; [respect_prototype | done].
  - destruct (socket_destroyed c w); [done|]. apply Hd; [respect_prototype | done].
  - done.
  - apply Hd; [respect_prototype | done].
Qed.

Lemma prototype_free_run cfg evs w :
  prototype_free w → prototype_free (run cfg evs w).
Proof.
  revert w. induction evs as [|ev evs IH]; intros w Hw; [done|]. cbn.
  by apply IH, prototype_free_react.
Qed.

Lemma parseDatabaseResponse_inherited cfg c id data w :
  property (subscribers w) id = Inherited →
  parseDatabaseResponse cfg c id data w = (Thrown (TypeError "is not a function"), w).
Proof.
  intros Hp. unfold parseDatabaseResponse.
  destruct (String.length data <=? 2).
  - by apply saveSubscriber_inherited.
  - unfold mbind, M_bind, bind. by rewrite sendDataToSubscribers_inherited.
Qed.

(** X18.  Along every execution from the initial state the registry has no
    own property with the name of a member of [Object.prototype] (such as
    [constructor] or [__proto__]); for such an identifier [saveSubscriber],
    [sendDataToSubscribers] and the close listener throw a [TypeError] and
    change nothing, and the reaction of a subscribe request for it leaves
    that [TypeError] uncaught whatever the payload: the device is never
    registered and never answered with a payload. *)
Theorem prototype_name_is_never_registered
    (cfg : Config) (evs : list Event) (id : string) :
  prototype_member id = true →
  let w := run cfg evs initial_world in
  subscribers w !! id = None ∧
  count id w = 0 ∧
  (∀ c, saveSubscriber cfg c id w = (Thrown (TypeError "is not a function"), w)) ∧
  (∀ data,
     sendDataToSubscribers id data w = (Thrown (TypeError "is not a function"), w)) ∧
  (∀ c, onClose c id w = (Thrown (TypeError "is not a function"), w)) ∧
  (∀ p call c data,
     pendingFetches w !! p = Some (call, ThenParse c id) →
     react cfg (EvFetchResolve p data) w =
     set_uncaught (λ l, l ++ [TypeError "is not a function"])
       (set_pendingFetches (delete p) w)).
Proof.
  intros Hid w.
  assert (Hw : prototype_free w).
  { apply prototype_free_run. by intros id' _. }
  assert (Hp : ∀ w0, subscribers w0 = subscribers w →
                property (subscribers w0) id = Inherited).
  { intros w0 ->. by apply prototype_free_inherited. }
  split_and!.
  - by apply Hw.
  - unfold count. by rewrite (Hw id Hid).
  - intros c. by apply saveSubscriber_inherited, Hp.
  - intros data. by apply sendDataToSubscribers_inherited, Hp.
  - intros c. unfold onClose, the_array. unfold_M. cbn. by rewrite (Hp w eq_refl).
  - intros p call c data Hf. cbn [react]. rewrite Hf. cbn [snd on_fulfilled].
    unfold dispatch. by rewrite parseDatabaseResponse_inherited by by apply Hp.
Qed.

Lemma prototype_name_is_never_registered_witness :
  let post := mkRequest "POST" "/subscribe" None (Some "constructor")
                (Some "test-subscription-key") in
  let w := run default_config [EvRequest post; EvBodyEnd 0 EmptyString] initial_world in
  let w' := react default_config (EvFetchResolve 0 "{}") w in
  prototype_member "constructor" = true ∧
  pendingFetches w = [(PLC_GetData "constructor", ThenParse 0 "constructor")] ∧
  subscribers w' = ∅ ∧
  uncaught w' = [TypeError "is not a function"].
Proof.
  intros post w w'.
  destruct (prototype_name_is_never_registered default_config
              [EvRequest post; EvBodyEnd 0 EmptyString] "constructor" eq_refl)
    as (_ & _ & _ & _ & _ & Hr).
  split_and!; [reflexivity | reflexivity | |];
    unfold w', w; by rewrite (Hr 0 (PLC_GetData "constructor") 0 "{}" eq_refl).
Defined.

(** ** The timeout delay of the environment *)

Lemma delay_or_set v s fallback :
  v = Some s → s ≠ EmptyString → delay_or v fallback = Text s.
Proof. intros -> Hs. unfold delay_or, truthy. by rewrite bool_decide_false. Qed.

(** X19.  When [SUBSCRIBER_TIMEOUT] is set to a non-empty value, the delay
    of line 13 is that text, and [req.socket.setTimeout] on line 162 rejects
    it: on a live socket [saveSubscriber] throws a [TypeError] after it has
    pushed the connection and installed the close listener, and installs no
    timeout callback; in the reaction of a subscribe request the exception
    is left uncaught.  When the variable is unset or empty the delay is the
    number 600000. *)
Theorem timeout_of_the_environment_is_rejected
    (env : gmap string string) (s : string) (id : string) (c : conn)
    (r : ServerResponse) (w : World) :
  env !! "SUBSCRIBER_TIMEOUT" = Some s →
  s ≠ EmptyString →
  prototype_member id = false →
  responses w !! c = Some r →
  destroyed r = false →
  let cfg := load_config env in
  let w' := exec (saveSubscriber cfg c id) w in
  subscriberTimeout cfg = Text s ∧
  outcome (saveSubscriber cfg c id) w = Thrown (TypeError "ERR_INVALID_ARG_TYPE") ∧
  w' = registered c id w ∧
  held id w' = held id w ++ [c] ∧
  (c, id) ∈ closeListeners w' ∧
  timeoutListeners w' = timeoutListeners w ∧
  (∀ p call data,
     pendingFetches w !! p = Some (call, ThenParse c id) →
     String.length data ≤ 2 →
     uncaught (react cfg (EvFetchResolve p data) w)
     = uncaught w ++ [TypeError "ERR_INVALID_ARG_TYPE"]) ∧
  (∀ env' : gmap string string,
     truthy (env' !! "SUBSCRIBER_TIMEOUT") = false →
     subscriberTimeout (load_config env') = Millis 600000%N).
Proof.
  intros Henv Hs Hid Hr Hd. cbv zeta.
  assert (Ht : subscriberTimeout (load_config env) = Text s)
    by by apply delay_or_set.
  assert (Hsave : ∀ w0 : World,
            responses w0 = responses w →
            saveSubscriber (load_config env) c id w0 =
            (Thrown (TypeError "ERR_INVALID_ARG_TYPE"), registered c id w0)).
  { intros w0 Hw0.
    rewrite saveSubscriber_registers, Ht by by apply property_not_inherited.
    apply (socket_setTimeout_text _ _ _ _ r); [|done]. cbn. by rewrite Hw0. }
  split_and!.
  - done.
  - unfold outcome. by rewrite Hsave.
  - unfold exec. by rewrite Hsave.
  - unfold exec. rewrite Hsave by done. cbn [snd].
    by rewrite held_registered, decide_True.
  - unfold exec. rewrite Hsave by done. cbn.
    apply elem_of_app. right. by apply list_elem_of_singleton.
  - unfold exec. by rewrite Hsave.
  - intros p call data Hf Hlen. cbn [react]. rewrite Hf. cbn [snd on_fulfilled].
    unfold parseDatabaseResponse.
    destruct (Nat.leb_spec (String.length data) 2) as [_|?]; [|lia].
    unfold dispatch. by rewrite Hsave.
  - intros env' He. unfold load_config, delay_or. cbn. by rewrite He.
Qed.

Lemma timeout_of_the_environment_is_rejected_witness :
  let env : gmap string string := {[ "SUBSCRIBER_TIMEOUT" := "30000" ]} in
  let w := set_responses (λ _, [fresh_response]) initial_world in
  let w' := exec (saveSubscriber (load_config env) 0 "dev-1") w in
  env !! "SUBSCRIBER_TIMEOUT" = Some "30000" ∧
  "30000" ≠ EmptyString ∧
  prototype_member "dev-1" = false ∧
  responses w !! 0 = Some fresh_response ∧
  destroyed fresh_response = false ∧
  outcome (saveSubscriber (load_config env) 0 "dev-1") w
  = Thrown (TypeError "ERR_INVALID_ARG_TYPE") ∧
  held "dev-1" w' = [0] ∧
  timeoutListeners w' = [].
Proof.
  intros env w w'.
  assert (Hs : "30000" ≠ EmptyString) by done.
  destruct (timeout_of_the_environment_is_rejected env "30000" "dev-1" 0
              fresh_response w eq_refl Hs eq_refl eq_refl eq_refl)
    as (_ & Ho & _ & Hh & _ & Ht & _).
  split_and!; [reflexivity | exact Hs | reflexivity | reflexivity | reflexivity
              | exact Ho | exact Hh | exact Ht].
Defined.

(** ** What reaches the peer *)



#[local] Instance stays_lost_preorder c : PreOrder (stays_lost c).
Proof.
  split.
  - by intros w Hd.
  - intros w1 w2 w3 H12 H23 Hd.
    destruct (H12 Hd) as [Hd2 Hr2]. destruct (H23 Hd2) as [Hd3 Hr3]. auto.
Qed.

Lemma stays_lost_frame c f :
  (∀ w, responses (f w) = responses w) → respects (stays_lost c) (modify f).
Proof.
  intros Hf w. unfold stays_lost, socket_destroyed, received. cbn.
  by rewrite Hf.
Qed.

Lemma stays_lost_alter c (f : ServerResponse → ServerResponse) i w :
  (∀ r, destroyed r = true →
     destroyed (f r) = true ∧
     ((if delivered r then sent r else None) = None →
      (if delivered (f r) then sent (f r) else None) = None)) →
  stays_lost c w (set_responses (alter f i) w).
Proof.
  intros Hf. unfold stays_lost, socket_destroyed, received. cbn.
  destruct (decide (i = c)) as [->|Hne].
  - rewrite list_lookup_alter_eq.
    destruct (responses w !! c) as [r|]; cbn; [|done].
    intros Hd. by destruct (Hf r Hd).
  - by rewrite list_lookup_alter_ne.
Qed.

Lemma stays_lost_set_statusCode c c' n : respects (stays_lost c) (set_statusCode c' n).
Proof. apply respects_modify. intros w. by apply stays_lost_alter. Qed.

Lemma stays_lost_res_end c c' d : respects (stays_lost c) (res_end c' d).
Proof.
  apply respects_bind; [apply _ | by apply stays_lost_frame |]. intros _.
  apply respects_modify. intros w. apply stays_lost_alter.
  intros r Hd. rewrite finish_destroyed. split; [done|].
  destruct (sent r) as [x|] eqn:Es.
  - rewrite finish_finished by eauto. by rewrite Es.
  - rewrite finish_open by done. cbn. by rewrite Hd.
Qed.

Lemma stays_lost_setHeader c c' name value :
  respects (stays_lost c) (setHeader c' name value).
Proof.
  intros w. unfold setHeader. unfold_M. cbn.
  destruct (responses w !! c') as [r|] eqn:E; [|done].
  destruct (sent r) as [x|] eqn:Es; cbn; [done|].
  unfold stays_lost, socket_destroyed, received. cbn.
  destruct (decide (c' = c)) as [->|Hne].
  - rewrite list_lookup_insert_eq by by eapply lookup_lt_Some.
    rewrite E. cbn. by rewrite Es.
  - by rewrite list_lookup_insert_ne.
Qed.



#[local] Hint Resolve stays_lost_set_statusCode stays_lost_res_end
  stays_lost_setHeader : respect.







